(** * Verification of the match estimators, API adapters and persistence
    gateway of serie-ai-multi-sport.

    Numbers the Python code computes with [float] are modelled as exact
    rationals [Q]; integer scores are [Z].  Strings are Stdlib strings whose
    characters are read as Latin-1 code points (0..255). *)

From Stdlib Require Import ZArith QArith Qround Lqa Lia List String Ascii Bool.
From Stdlib Require Import Sorted Permutation.
Import ListNotations.
Open Scope string_scope.
Open Scope Z_scope.
Set Warnings "-register-all".

(** ** Python primitives *)

(** [ord(c)] for a character. *)
Definition ord (c : ascii) : Z := Z.of_nat (nat_of_ascii c).

(** [str.lower] on a Latin-1 code point: A..Z and the capitals 192..222
    (except the multiplication sign 215) move down by 32. *)
Definition lower_code (n : Z) : Z :=
  if ((65 <=? n) && (n <=? 90)) || ((192 <=? n) && (n <=? 222) && negb (n =? 215))
  then n + 32 else n.

(** [sum(ord(c) for c in s.lower())] *)
Fixpoint sum_ord_lower (s : string) : Z :=
  match s with
  | EmptyString => 0
  | String c rest => lower_code (ord c) + sum_ord_lower rest
  end.

(** [sum(ord(c) for c in name.lower()) % 100], the raw score shared by the
    three estimators. *)
Definition char_score (s : string) : Z := sum_ord_lower s mod 100.

(** Python's true division [/]: raises [ZeroDivisionError] on a zero
    divisor, modelled as [None]. *)
Definition py_div (a b : Q) : option Q :=
  if Qeq_bool b 0 then None else Some (a / b)%Q.

Notation "'let*' x := e1 'in' e2" :=
  (match e1 with Some x => e2 | None => None end)
  (at level 200, x name, e1 at level 100, e2 at level 200).

(** Strict comparison [a < b] on rationals. *)
Definition Qltb (a b : Q) : bool := negb (Qle_bool b a).

(** [max(a, b)]: Python keeps the first argument unless a later one is
    strictly greater. *)
Definition py_max2 (a b : Q) : Q := if Qltb a b then b else a.
Definition py_max3 (a b c : Q) : Q := py_max2 (py_max2 a b) c.

(** Round-half-to-even of a rational to an integer, as [round(x)]. *)
Definition round_half_even (y : Q) : Z :=
  let n := Qfloor y in
  let f := (y - inject_Z n)%Q in
  if Qltb f (1 # 2) then n
  else if Qltb (1 # 2) f then n + 1
  else if Z.even n then n else n + 1.

(** [round(x, 1)] and [round(x, 2)]. *)
Definition round1 (x : Q) : Q := round_half_even (x * 10)%Q # 10.
Definition round2 (x : Q) : Q := round_half_even (x * 100)%Q # 100.

(** ** Football estimator ([FootballDataManager.analyze_match], identical
    to [DataManager.analyze_match] in bot.py) *)

(** Raw scores with the both-zero substitution (lines 93-97). *)
Definition football_scores (home away : string) : Z * Z :=
  let home_score := char_score home in
  let away_score := char_score away in
  if home_score + away_score =? 0 then (50, 50) else (home_score, away_score).

(** The three probabilities after the draw adjustment (lines 93-104),
    returned in the order home, draw, away. *)
Definition football_probs (home away : string) : option (Q * Q * Q) :=
  let '(home_score, away_score) := football_scores home away in
  let* h := py_div (inject_Z home_score) (inject_Z (home_score + away_score)) in
  let* a := py_div (inject_Z away_score) (inject_Z (home_score + away_score)) in
  let home_prob := (h * 100)%Q in
  let away_prob := (a * 100)%Q in
  let draw_prob := py_max2 20%Q (100 - home_prob - away_prob)%Q in
  Some ((home_prob - draw_prob / 3)%Q, draw_prob, (away_prob - draw_prob / 3)%Q).

(** Outcome label (line 106). *)
Definition football_label (home_prob draw_prob away_prob : Q) : string :=
  if Qltb away_prob home_prob && Qltb draw_prob home_prob then "1"
  else if Qltb home_prob draw_prob && Qltb away_prob draw_prob then "X"
  else "2".

Record football_result := {
  fr_home : Q; fr_draw : Q; fr_away : Q;
  fr_prediction : string;
  fr_confidence : Q;
  fr_goals_home : Z; fr_goals_away : Z;
  fr_selection : string;
  fr_odds : Q;
  fr_edge : Q
}.

(** [analyze_match(home, away)]; [edge_draw] is the value drawn by
    [random.uniform(3, 8)]. *)
Definition analyze_match_football (home away : string) (edge_draw : Q)
  : option football_result :=
  let '(home_score, away_score) := football_scores home away in
  let* probs := football_probs home away in
  let '(home_prob, draw_prob, away_prob) := probs in
  let prediction := football_label home_prob draw_prob away_prob in
  let confidence := py_max3 home_prob draw_prob away_prob in
  let selected :=
    if String.eqb prediction "1" then home_prob
    else if String.eqb prediction "X" then draw_prob else away_prob in
  let* odds := py_div 1%Q (selected / 100)%Q in
  Some {| fr_home := round1 home_prob;
          fr_draw := round1 draw_prob;
          fr_away := round1 away_prob;
          fr_prediction := prediction;
          fr_confidence := round1 confidence;
          fr_goals_home := Z.max 0 (round_half_even (inject_Z home_score / 100 * 3)%Q);
          fr_goals_away := Z.max 0 (round_half_even (inject_Z away_score / 100 * 2)%Q);
          fr_selection := prediction;
          fr_odds := round2 odds;
          fr_edge := round1 edge_draw |}.

(** ** Tennis estimator ([TennisDataManager.analyze_match]) *)

(** The values drawn by the [random] module during one call, in order. *)
Record tennis_draws := {
  td_adjustment : Q;          (* random.uniform(-5, 5) *)
  td_sets_second : bool;      (* random.choice of the two set scores *)
  td_surface : nat;           (* random.choice(self.surfaces) *)
  td_specialist_second : bool;(* random.choice([player1, player2]) *)
  td_aces_second : bool;      (* random.choice([player1, player2]) *)
  td_bp_won : Z;              (* random.randint(3, 8) *)
  td_bp_total : Z;            (* random.randint(10, 15) *)
  td_first_serve : Z          (* random.randint(60, 75) *)
}.

Definition surfaces : list string := ["Hard"; "Clay"; "Grass"; "Carpet"].

(** Raw scores with the both-zero substitution (lines 106-110). *)
Definition tennis_scores (player1 player2 : string) : Z * Z :=
  let p1_score := char_score player1 in
  let p2_score := char_score player2 in
  if p1_score + p2_score =? 0 then (50, 50) else (p1_score, p2_score).

(** The two probabilities after the perturbation and the renormalization
    (lines 106-124). *)
Definition tennis_probs (player1 player2 : string) (adjustment : Q) : option (Q * Q) :=
  let '(p1_score, p2_score) := tennis_scores player1 player2 in
  let total := inject_Z (p1_score + p2_score) in
  let* a := py_div (inject_Z p1_score) total in
  let* b := py_div (inject_Z p2_score) total in
  let player1_prob := (a * 100 + adjustment)%Q in
  let player2_prob := (b * 100 - adjustment)%Q in
  let total_prob := (player1_prob + player2_prob)%Q in
  let* c := py_div player1_prob total_prob in
  let* d := py_div player2_prob total_prob in
  Some ((c * 100)%Q, (d * 100)%Q).

Record tennis_result := {
  tr_player1 : string; tr_player2 : string;
  tr_prob1 : Q; tr_prob2 : Q;
  tr_predicted_winner : string;
  tr_confidence : Q;
  tr_predicted_score : string;
  tr_surface : string;
  tr_surface_specialist : string;
  tr_aces_advantage : string;
  tr_break_points : Z * Z;
  tr_first_serve : Z
}.

Definition analyze_match_tennis (player1 player2 : string) (rnd : tennis_draws)
  : option tennis_result :=
  let* probs := tennis_probs player1 player2 (td_adjustment rnd) in
  let '(player1_prob, player2_prob) := probs in
  let predicted_winner := if Qltb player2_prob player1_prob then player1 else player2 in
  let confidence := py_max2 player1_prob player2_prob in
  let sets :=
    if Qltb player2_prob player1_prob
    then (if td_sets_second rnd then "2-1" else "2-0")
    else (if td_sets_second rnd then "1-2" else "0-2") in
  Some {| tr_player1 := player1; tr_player2 := player2;
          tr_prob1 := round1 player1_prob;
          tr_prob2 := round1 player2_prob;
          tr_predicted_winner := predicted_winner;
          tr_confidence := round1 confidence;
          tr_predicted_score := sets;
          tr_surface := nth (td_surface rnd) surfaces "Hard";
          tr_surface_specialist := if td_specialist_second rnd then player2 else player1;
          tr_aces_advantage := if td_aces_second rnd then player2 else player1;
          tr_break_points := (td_bp_won rnd, td_bp_total rnd);
          tr_first_serve := td_first_serve rnd |}.

(** ** Basketball estimator ([BasketballDataManager.analyze_match]) *)

(** Raw scores with the home-court bonus (lines 89-93). *)
Definition basketball_scores (home_team away_team : string) : Z * Z :=
  let h_score := char_score home_team in
  let a_score := char_score away_team in
  (h_score + 10, a_score).

(** The two win probabilities (lines 95-97). *)
Definition basketball_probs (home_team away_team : string) : option (Q * Q) :=
  let '(h_score, a_score) := basketball_scores home_team away_team in
  let total := inject_Z (h_score + a_score) in
  let* h := py_div (inject_Z h_score) total in
  let* a := py_div (inject_Z a_score) total in
  Some ((h * 100)%Q, (a * 100)%Q).

Record basketball_result := {
  br_home_team : string; br_away_team : string;
  br_home : Q; br_away : Q;
  br_predicted_winner : string;
  br_confidence : Q;
  br_spread : string * Z;     (* sign and number of the spread string *)
  br_total_points : Z;
  br_keys : list string
}.

(** [analyze_match(home_team, away_team)]; [spread] and [total_points] are
    the values drawn by [random.randint(2, 12)] and [random.randint(205, 235)]. *)
Definition analyze_match_basketball (home_team away_team : string) (spread total_points : Z)
  : option basketball_result :=
  let* probs := basketball_probs home_team away_team in
  let '(home_prob, away_prob) := probs in
  let predicted_winner := if Qltb away_prob home_prob then home_team else away_team in
  let confidence := py_max2 home_prob away_prob in
  Some {| br_home_team := home_team; br_away_team := away_team;
          br_home := round1 home_prob; br_away := round1 away_prob;
          br_predicted_winner := predicted_winner;
          br_confidence := round1 confidence;
          br_spread := ((if String.eqb predicted_winner away_team then "+" else "-")%string, spread);
          br_total_points := total_points;
          br_keys := ["Rebound Control"; "3-Point Percentage"; "Turnover Margin"] |}.

(** ** Decoded API payloads *)

(** A value produced by [response.json()]. *)
Inductive json :=
| JNull
| JBool (b : bool)
| JNum (z : Z)
| JStr (s : string)
| JList (l : list json)
| JObj (kvs : list (string * json)).

(** Key lookup in a decoded object; a key bound several times keeps its
    last value, as [json.loads] does. *)
Fixpoint obj_lookup (kvs : list (string * json)) (k : string) : option json :=
  match kvs with
  | [] => None
  | (k', v) :: rest =>
      match obj_lookup rest k with
      | Some w => Some w
      | None => if String.eqb k k' then Some v else None
      end
  end.

(** [d.get(k, default)]: only a dict has [.get]; on any other value Python
    raises [AttributeError], modelled as [None]. *)
Definition py_get (d : json) (k : string) (default : json) : option json :=
  match d with
  | JObj kvs => Some (match obj_lookup kvs k with Some v => v | None => default end)
  | _ => None
  end.

(** The loop shared by the tennis and basketball formatters:
    [for x in xs: try: out.append(f(x)) except Exception: continue]. *)
Fixpoint format_records {A B : Type} (f : A -> option B) (xs : list A) : list B :=
  match xs with
  | [] => []
  | x :: rest =>
      match f x with
      | Some y => y :: format_records f rest
      | None => format_records f rest
      end
  end.

(** *** Tennis ([TennisDataManager._format_api_matches], [_format_api_rankings]) *)

Record tennis_match := {
  tm_player1 : json; tm_player2 : json; tm_tournament : json;
  tm_surface : json; tm_time : json; tm_round : json
}.

Definition format_tennis_match (match_ : json) : option tennis_match :=
  let* p1 := py_get match_ "player1" (JObj []) in
  let* player1 := py_get p1 "name" (JStr "Player 1") in
  let* p2 := py_get match_ "player2" (JObj []) in
  let* player2 := py_get p2 "name" (JStr "Player 2") in
  let* comp := py_get match_ "competition" (JObj []) in
  let* tournament := py_get comp "name" (JStr "Tournament") in
  let* surface := py_get match_ "surface" (JStr "Hard") in
  let* time := py_get match_ "date" (JStr "TBD") in
  let* round := py_get match_ "round" (JStr "R32") in
  Some {| tm_player1 := player1; tm_player2 := player2; tm_tournament := tournament;
          tm_surface := surface; tm_time := time; tm_round := round |}.

Definition _format_api_matches (api_data : list json) : list tennis_match :=
  format_records format_tennis_match (firstn 10 api_data).

Record tennis_ranking := {
  rk_rank : json; rk_player : json; rk_points : json; rk_country : json
}.

Definition format_tennis_ranking (rank : json) : option tennis_ranking :=
  let* r := py_get rank "rank" (JNum 0) in
  let* pl := py_get rank "player" (JObj []) in
  let* player := py_get pl "name" (JStr "Unknown") in
  let* points := py_get rank "points" (JNum 0) in
  let* pl' := py_get rank "player" (JObj []) in
  let* country := py_get pl' "country" (JStr "N/A") in
  Some {| rk_rank := r; rk_player := player; rk_points := points; rk_country := country |}.

(** [str.upper] on a Latin-1 code point. *)
Definition upper_code (n : Z) : Z :=
  if ((97 <=? n) && (n <=? 122)) || ((224 <=? n) && (n <=? 254) && negb (n =? 247))
  then n - 32 else n.

Fixpoint py_upper (s : string) : string :=
  match s with
  | EmptyString => EmptyString
  | String c rest => String (ascii_of_nat (Z.to_nat (upper_code (ord c)))) (py_upper rest)
  end.

Definition _format_api_rankings (api_data : list json) (tour : string)
  : string * list tennis_ranking :=
  (py_upper tour, format_records format_tennis_ranking (firstn 20 api_data)).

(** *** Basketball ([BasketballDataManager._format_api_games]) *)

Record basketball_game := {
  bg_home_team : json; bg_away_team : json; bg_league : json;
  bg_time : json; bg_date : json
}.

Definition format_basketball_game (game : json) : option basketball_game :=
  let* teams := py_get game "teams" (JObj []) in
  let* home := py_get teams "home" (JObj []) in
  let* home_team := py_get home "name" (JStr "Home") in
  let* teams' := py_get game "teams" (JObj []) in
  let* away := py_get teams' "away" (JObj []) in
  let* away_team := py_get away "name" (JStr "Away") in
  let* lg := py_get game "league" (JObj []) in
  let* league := py_get lg "name" (JStr "League") in
  let* time := py_get game "time" (JStr "TBD") in
  let* date := py_get game "date" (JStr "Today") in
  Some {| bg_home_team := home_team; bg_away_team := away_team; bg_league := league;
          bg_time := time; bg_date := date |}.

Definition _format_api_games (api_data : list json) : list basketball_game :=
  format_records format_basketball_game (firstn 15 api_data).

(** *** Football ([FootballDataManager.get_todays_matches]) *)

(** [self.leagues]: code, API id and display name. *)
Definition leagues : list (string * Z * string) :=
  [("SA", 135, "🇮🇹 Serie A");
   ("PL", 39, "🏴󠁧󠁢󠁥󠁮󠁧󠁿 Premier League");
   ("PD", 140, "🇪🇸 La Liga");
   ("BL1", 78, "🇩🇪 Bundesliga")].

(** [next((k for k, v in self.leagues.items() if v['id'] == league_id), None)],
    returning the code together with [self.leagues[code]['name']]. *)
Definition find_league (league_id : json) : option (string * string) :=
  match find (fun '(_, id, _) => match league_id with JNum z => z =? id | _ => false end) leagues with
  | Some (code, _, name) => Some (code, name)
  | None => None
  end.

Record football_match := {
  fm_home : json; fm_away : json; fm_league : string; fm_time : string
}.

(** [s.replace('Z', '+00:00')]; only a string has [.replace]. *)
Fixpoint replace_Z (s : string) : string :=
  match s with
  | EmptyString => EmptyString
  | String c rest => if Ascii.eqb c "Z"%char then "+00:00" ++ replace_Z rest
                     else String c (replace_Z rest)
  end.

Definition py_replace_Z (v : json) : option string :=
  match v with JStr s => Some (replace_Z s) | _ => None end.

Definition is_digit (c : ascii) : bool :=
  (48 <=? ord c) && (ord c <=? 57).

(** [datetime.fromisoformat(s)] as CPython 3.7-3.10 implement it in C
    ([Modules/_datetimemodule.c]), on the UTF-8 buffer of [s], which ends in
    a NUL byte; [None] is a [ValueError].  Python 3.11 and later accept more
    shapes (week dates, basic format, ["Z"]); the loop below is therefore
    stated for any parser ([map_fixture_with]). *)

(** [*p]: the byte at [i], the terminating NUL past the end. *)
Definition c_at (s : string) (i : nat) : ascii :=
  match String.get i s with Some c => c | None => "000"%char end.

Definition is_nul (c : ascii) : bool := Ascii.eqb c "000"%char.

(** [parse_digits(ptr, var, num_digits)]: [None] is [NULL]; the result is
    the pointer after the digits and the accumulated [*var]. *)
Fixpoint parse_digits (s : string) (p : nat) (var : Z) (num_digits : nat)
  : option (nat * Z) :=
  match num_digits with
  | O => Some (p, var)
  | S n =>
      let c := c_at s p in
      if is_digit c then parse_digits s (S p) (var * 10 + (ord c - 48)) n
      else None
  end.

(** [parse_isoformat_date]: [YYYY-MM-DD] at the start of the buffer; [None]
    for the return codes -1 and -2. *)
Definition parse_isoformat_date (s : string) : option (Z * Z * Z) :=
  match parse_digits s 0 0 4 with
  | None => None
  | Some (p, year) =>
      if negb (Ascii.eqb (c_at s p) "-"%char) then None else
      match parse_digits s (S p) 0 2 with
      | None => None
      | Some (p, month) =>
          if negb (Ascii.eqb (c_at s p) "-"%char) then None else
          match parse_digits s (S p) 0 2 with
          | None => None
          | Some (_, day) => Some (year, month, day)
          end
      end
  end.

(** State of the [for] loop of [parse_hh_mm_ss_ff] when it is left: by a
    [return c != '\0'] ([HmsDone]) or towards the fraction ([HmsFrac], after a
    ['.'] or after the third component). *)
Inductive hms_exit :=
| HmsDone (vals : list Z) (rv : bool)
| HmsFrac (vals : list Z) (p : nat).

(** [for (size_t i = 0; i < 3; ++i) { ... }], [k] iterations left; [vals]
    are the components parsed so far. *)
Fixpoint hms_loop (s : string) (p p_end : nat) (k : nat) (vals : list Z)
  : option hms_exit :=
  match k with
  | O => Some (HmsFrac vals p)
  | S k' =>
      match parse_digits s p 0 2 with
      | None => None                                          (* -3 *)
      | Some (p1, v) =>
          let vals := (vals ++ [v])%list in
          let c := c_at s p1 in                               (* c = *(p++) *)
          if (p_end <=? S p1)%nat then Some (HmsDone vals (negb (is_nul c)))
          else if Ascii.eqb c ":"%char then hms_loop s (S p1) p_end k' vals
          else if Ascii.eqb c "."%char then Some (HmsFrac vals (S p1))
          else None                                           (* -4 *)
      end
  end.

(** [parse_hh_mm_ss_ff(tstr, tstr_end, ...)]: hour, minute, second,
    microsecond and the return value 1 ([true]) or 0 ([false]); [None] for the
    negative return codes. *)
Definition parse_hh_mm_ss_ff (s : string) (p p_end : nat)
  : option (Z * Z * Z * Z * bool) :=
  let val vals i := nth i vals 0 in
  match hms_loop s p p_end 3 [] with
  | None => None
  | Some (HmsDone vals rv) => Some (val vals 0%nat, val vals 1%nat, val vals 2%nat, 0, rv)
  | Some (HmsFrac vals p) =>
      let len_remains := (p_end - p)%nat in
      if negb ((len_remains =? 6)%nat || (len_remains =? 3)%nat) then None else
      match parse_digits s p 0 len_remains with
      | None => None
      | Some (p', us) =>
          Some (val vals 0%nat, val vals 1%nat, val vals 2%nat,
                if (len_remains =? 3)%nat then us * 1000 else us,
                negb (is_nul (c_at s p')))
      end
  end.

(** The [do { ... } while (++tzinfo_pos < p_end)] search for ['+'] or ['-']
    from [i]; [fuel] bounds the iterations. *)
Fixpoint find_tzinfo_pos (s : string) (i p_end : nat) (fuel : nat) : nat :=
  match fuel with
  | O => i
  | S f =>
      let c := c_at s i in
      if Ascii.eqb c "+"%char || Ascii.eqb c "-"%char then i
      else if (S i <? p_end)%nat then find_tzinfo_pos s (S i) p_end f
      else S i
  end.

(** [parse_isoformat_time(dtstr, dtlen, ...)] on the bytes [p .. p+dtlen):
    hour, minute, second, microsecond and, for the return code 1, the offset
    [(tzoffset, tzmicrosecond)]; [None] for the negative return codes. *)
Definition parse_isoformat_time (s : string) (p dtlen : nat)
  : option (Z * Z * Z * Z * option (Z * Z)) :=
  let p_end := (p + dtlen)%nat in
  let tzinfo_pos := find_tzinfo_pos s p p_end (S dtlen) in
  match parse_hh_mm_ss_ff s p tzinfo_pos with
  | None => None
  | Some (hour, minute, second, us, rv) =>
      if (tzinfo_pos =? p_end)%nat then
        if rv then None else Some (hour, minute, second, us, None)   (* -5 *)
      else
        let tzlen := (p_end - tzinfo_pos)%nat in
        if negb ((tzlen =? 6)%nat || (tzlen =? 9)%nat || (tzlen =? 16)%nat) then None else
        let tzsign := if Ascii.eqb (c_at s tzinfo_pos) "-"%char then -1 else 1 in
        match parse_hh_mm_ss_ff s (S tzinfo_pos) p_end with
        | None => None
        | Some (tzhour, tzminute, tzsecond, tzus, rv') =>
            if rv' then None
            else Some (hour, minute, second, us,
                       Some (tzsign * (tzhour * 3600 + tzminute * 60 + tzsecond), tzus * tzsign))
        end
  end.

Definition is_leap (year : Z) : bool :=
  (year mod 4 =? 0) && ((negb (year mod 100 =? 0)) || (year mod 400 =? 0)).

(** [days_in_month(year, month)] *)
Definition days_in_month (year month : Z) : Z :=
  if month =? 2 then (if is_leap year then 29 else 28)
  else if (month =? 4) || (month =? 6) || (month =? 9) || (month =? 11) then 30
  else 31.

(** [check_date_args] and [check_time_args] of [new_datetime]. *)
Definition check_date_args (year month day : Z) : bool :=
  (1 <=? year) && (year <=? 9999) && (1 <=? month) && (month <=? 12)
  && (1 <=? day) && (day <=? days_in_month year month).

Definition check_time_args (hour minute second us : Z) : bool :=
  (0 <=? hour) && (hour <=? 23) && (0 <=? minute) && (minute <=? 59)
  && (0 <=? second) && (second <=? 59) && (0 <=? us) && (us <=? 999999).

(** [tzinfo_from_isoformat_results]: [new_timezone] refuses an offset that
    is not strictly between -24h and 24h. *)
Definition check_tz (tz : option (Z * Z)) : bool :=
  match tz with
  | None => true
  | Some (tzoffset, tzus) =>
      let total := tzoffset * 1000000 + tzus in
      (- 86400000000 <? total) && (total <? 86400000000)
  end.

(** [datetime_fromisoformat]: the date, then, when the string is longer
    than 10 bytes, the time after the separator at byte 10 (one UTF-8
    character, 1 to 4 bytes); the result is [(hour, minute)]. *)
Definition datetime_fromisoformat (s : string) : option (Z * Z) :=
  let len := String.length s in
  match parse_isoformat_date s with
  | None => None
  | Some (year, month, day) =>
      let time :=
        if (10 <? len)%nat then
          let b := ord (c_at s 10) in
          let p := if Z.land b 128 =? 0 then 11%nat
                   else if Z.land b 240 =? 224 then 13%nat
                   else if Z.land b 240 =? 240 then 14%nat
                   else 12%nat in
          (* a lead byte whose character overruns the buffer is not UTF-8 *)
          if (len <? p)%nat then None else parse_isoformat_time s p (len - p)
        else Some (0, 0, 0, 0, None) in
      match time with
      | None => None
      | Some (hour, minute, second, us, tz) =>
          if check_date_args year month day && check_time_args hour minute second us
             && check_tz tz
          then Some (hour, minute) else None
      end
  end.

(** [strftime("%H:%M")] *)
Definition pad2 (n : Z) : string :=
  String (ascii_of_nat (Z.to_nat (48 + n / 10)))
    (String (ascii_of_nat (Z.to_nat (48 + n mod 10))) EmptyString).

Definition fromisoformat_hhmm (s : string) : option string :=
  match datetime_fromisoformat s with
  | None => None
  | Some (hour, minute) => Some (pad2 hour ++ ":" ++ pad2 minute)
  end.

(** One iteration of the loop body (lines 37-46), for a parser [fromiso] of
    [datetime.fromisoformat(.).strftime("%H:%M")]: [None] when it raises,
    [Some None] when the fixture's league is not supported. *)
Definition map_fixture_with (fromiso : string -> option string) (fix_ : json)
  : option (option football_match) :=
  let* lg := py_get fix_ "league" (JObj []) in
  let* league_id := py_get lg "id" JNull in
  match find_league league_id with
  | None => Some None
  | Some (_, league_name) =>
      let* teams := py_get fix_ "teams" (JObj []) in
      let* home := py_get teams "home" (JObj []) in
      let* home_name := py_get home "name" JNull in
      let* teams' := py_get fix_ "teams" (JObj []) in
      let* away := py_get teams' "away" (JObj []) in
      let* away_name := py_get away "name" JNull in
      let* fx := py_get fix_ "fixture" (JObj []) in
      let* date := py_get fx "date" JNull in
      let* iso := py_replace_Z date in
      let* time := fromiso iso in
      Some (Some {| fm_home := home_name; fm_away := away_name;
                    fm_league := league_name; fm_time := time |})
  end.

(** The whole loop (lines 35-46): an exception in any iteration leaves it. *)
Fixpoint map_fixtures_with (fromiso : string -> option string) (fixtures : list json)
  : option (list football_match) :=
  match fixtures with
  | [] => Some []
  | fix_ :: rest =>
      let* m := map_fixture_with fromiso fix_ in
      let* ms := map_fixtures_with fromiso rest in
      Some (match m with Some x => x :: ms | None => ms end)
  end.

(** The loop with the [fromisoformat] of CPython 3.7-3.10. *)
Definition map_fixture : json -> option (option football_match) :=
  map_fixture_with fromisoformat_hhmm.

Definition map_fixtures : list json -> option (list football_match) :=
  map_fixtures_with fromisoformat_hhmm.

(** [_get_simulated_matches()] *)
Definition simulated_football_matches : list football_match :=
  [ {| fm_league := "🇮🇹 Serie A"; fm_home := JStr "Inter"; fm_away := JStr "Milan"; fm_time := "20:45" |};
    {| fm_league := "🏴󠁧󠁢󠁥󠁮󠁧󠁿 Premier League"; fm_home := JStr "Man City"; fm_away := JStr "Liverpool"; fm_time := "12:30" |};
    {| fm_league := "🇪🇸 La Liga"; fm_home := JStr "Barcelona"; fm_away := JStr "Real Madrid"; fm_time := "21:00" |};
    {| fm_league := "🇮🇹 Serie A"; fm_home := JStr "Juventus"; fm_away := JStr "Napoli"; fm_time := "18:00" |};
    {| fm_league := "🇩🇪 Bundesliga"; fm_home := JStr "Bayern"; fm_away := JStr "Dortmund"; fm_time := "17:30" |} ].

(** [get_todays_matches()]: [api_key] is [SPORTS_API_KEY]; [fixtures] is
    the result of [get_football_fixtures()] ([None] when the request failed);
    [fromiso] as in [map_fixture_with]. *)
Definition get_todays_matches_football_with (fromiso : string -> option string)
  (api_key : string) (fixtures : option (list json)) : list football_match :=
  if String.eqb api_key "" then simulated_football_matches else
  match fixtures with
  | None | Some [] => simulated_football_matches
  | Some fs =>
      match map_fixtures_with fromiso fs with
      | None => simulated_football_matches        (* except Exception *)
      | Some [] => simulated_football_matches
      | Some matches => matches
      end
  end.

Definition get_todays_matches_football : string -> option (list json) -> list football_match :=
  get_todays_matches_football_with fromisoformat_hhmm.

(** ** Persistence gateway ([DatabaseManager]) *)

(** A row of the [users] table; timestamps are integers (seconds). *)
Record user_row := {
  u_id : Z;                       (* primary key *)
  u_telegram_id : Z;
  u_username : option string;
  u_first_name : option string;
  u_last_name : option string;
  u_created_at : Z;
  u_last_seen : Z
}.

(** A row of one of the three prediction tables, restricted to the columns
    [get_user_stats] reads. *)
Record prediction_row := {
  p_id : Z;
  p_user_id : Z;
  p_is_correct : option bool;     (* NULL until settlement *)
  p_created_at : Z
}.

Inductive variant := Football | Tennis | Basketball.

Record db := {
  users : list user_row;
  next_user_id : Z;               (* the next autoincrement value *)
  predictions : list prediction_row;
  tennis_predictions : list prediction_row;
  basketball_predictions : list prediction_row
}.

Definition table (v : variant) (st : db) : list prediction_row :=
  match v with
  | Football => predictions st
  | Tennis => tennis_predictions st
  | Basketball => basketball_predictions st
  end.

Definition set_users (st : db) (us : list user_row) (next : Z) : db :=
  {| users := us; next_user_id := next; predictions := predictions st;
     tennis_predictions := tennis_predictions st;
     basketball_predictions := basketball_predictions st |}.

(** Python's [a or b] on an optional string: [a] when it is truthy. *)
Definition py_or (a b : option string) : option string :=
  match a with
  | Some s => if String.eqb s "" then b else a
  | None => b
  end.

(** The update branch (lines 40-43) applied to a row. *)
Definition touch_user (now : Z) (username first_name last_name : option string)
    (u : user_row) : user_row :=
  {| u_id := u_id u; u_telegram_id := u_telegram_id u;
     u_username := py_or username (u_username u);
     u_first_name := py_or first_name (u_first_name u);
     u_last_name := py_or last_name (u_last_name u);
     u_created_at := u_created_at u;
     u_last_seen := now |}.

(** [get_or_create_user(telegram_id, username, first_name, last_name)] at
    time [now] ([datetime.utcnow()]); returns the user and the new state. *)
Definition get_or_create_user (st : db) (now : Z) (telegram_id : Z)
    (username first_name last_name : option string) : user_row * db :=
  match find (fun u => u_telegram_id u =? telegram_id) (users st) with
  | None =>
      let user := {| u_id := next_user_id st; u_telegram_id := telegram_id;
                     u_username := username; u_first_name := first_name;
                     u_last_name := last_name;
                     u_created_at := now; u_last_seen := now |} in
      (user, set_users st (users st ++ [user]) (next_user_id st + 1))
  | Some user =>
      let user' := touch_user now username first_name last_name user in
      (user', set_users st
                (map (fun r => if u_id r =? u_id user then touch_user now username first_name last_name r else r)
                     (users st))
                (next_user_id st))
  end.

(** [order_by(desc(created_at))]: insertion into a list sorted by
    decreasing creation time. *)
Fixpoint insert_desc (p : prediction_row) (l : list prediction_row) : list prediction_row :=
  match l with
  | [] => [p]
  | q :: rest => if p_created_at q <? p_created_at p then p :: l else q :: insert_desc p rest
  end.

Fixpoint order_by_created_desc (l : list prediction_row) : list prediction_row :=
  match l with
  | [] => []
  | p :: rest => insert_desc p (order_by_created_desc rest)
  end.

Record stats := {
  total_predictions : Z;
  correct_predictions : Z;
  accuracy : Q;
  recent_predictions : list prediction_row
}.

(** [get_user_stats], [get_tennis_stats] and [get_basketball_stats]: the
    same code over the table of the variant [v]. *)
Definition get_stats (v : variant) (st : db) (now : Z) (telegram_id : Z) : stats * db :=
  let '(user, st1) := get_or_create_user st now telegram_id None None None in
  let mine := filter (fun p => p_user_id p =? u_id user) (table v st1) in
  let total := Z.of_nat (List.length mine) in
  let correct :=
    Z.of_nat (List.length (filter (fun p => match p_is_correct p with Some true => true | _ => false end) mine)) in
  let recent := firstn 5 (order_by_created_desc mine) in
  let acc := if 0 <? total then (inject_Z correct / inject_Z total * 100)%Q else 0%Q in
  ({| total_predictions := total; correct_predictions := correct;
      accuracy := round1 acc; recent_predictions := recent |}, st1).

(** ** The API client and the managers' entry points *)

(** *** Python built-ins on decoded values *)

(** [bool(v)] for a decoded JSON value. *)
Definition truthy (v : json) : bool :=
  match v with
  | JNull => false
  | JBool b => b
  | JNum z => negb (z =? 0)
  | JStr s => negb (String.eqb s "")
  | JList l => match l with [] => false | _ => true end
  | JObj kvs => match kvs with [] => false | _ => true end
  end.

(** The keys of a decoded object in insertion order, each once. *)
Fixpoint dict_keys_from (seen : list string) (kvs : list (string * json)) : list string :=
  match kvs with
  | [] => []
  | (k, _) :: rest =>
      if existsb (String.eqb k) seen then dict_keys_from seen rest
      else k :: dict_keys_from (k :: seen) rest
  end.

(** A one-character string, as produced by iterating over a [str]. *)
Definition char_str (c : ascii) : json := JStr (String c EmptyString).

(** [for x in v]: a list yields its items, a string its characters, a dict
    its keys; iterating any other value raises [TypeError] ([None]). *)
Definition py_iter (v : json) : option (list json) :=
  match v with
  | JList l => Some l
  | JStr s => Some (map char_str (list_ascii_of_string s))
  | JObj kvs => Some (map JStr (dict_keys_from [] kvs))
  | _ => None
  end.

(** The items visited by [for x in v[:n]]; slicing a dict, a number, a
    boolean or [None] raises. *)
Definition py_slice (v : json) (n : nat) : option (list json) :=
  match v with
  | JList l => Some (firstn n l)
  | JStr s => Some (map char_str (firstn n (list_ascii_of_string s)))
  | _ => None
  end.

(** [v[0]]: [IndexError] on an empty list or string, [KeyError] on a dict
    (its keys are strings), [TypeError] on the other values. *)
Definition py_index0 (v : json) : option json :=
  match v with
  | JList (x :: _) => Some x
  | JStr (String c _) => Some (char_str c)
  | _ => None
  end.

(** [v[k]] for a string key: only a dict holding [k] answers. *)
Definition py_getitem (v : json) (k : string) : option json :=
  match v with
  | JObj kvs => obj_lookup kvs k
  | _ => None
  end.

(** [[f(x) for x in xs]] with no [try] around the item: the first
    exception leaves the whole loop. *)
Fixpoint map_all {A B : Type} (f : A -> option B) (xs : list A) : option (list B) :=
  match xs with
  | [] => Some []
  | x :: rest =>
      match f x with
      | Some y => match map_all f rest with Some ys => Some (y :: ys) | None => None end
      | None => None
      end
  end.

(** *** [SportsAPIClient._make_request] *)

(** What [requests.get], [raise_for_status()] and [response.json()]
    produced: a [RequestException] (connection failure, timeout, error
    status, undecodable body) or the decoded body. *)
Inductive http_response :=
| RequestFailed
| Body (data : json).

(** [_make_request(url, endpoint, params)]: [Some r] when it returns [r],
    [None] when it raises.  Only [RequestException] is caught, so
    [data.get] on a body that is not a dict ([AttributeError]) escapes. *)
Definition _make_request (resp : http_response) : option (option json) :=
  match resp with
  | RequestFailed => Some None
  | Body data =>
      let* errors := py_get data "errors" JNull in
      if truthy errors then Some None
      else
        let* response := py_get data "response" (JList []) in
        Some (Some response)
  end.

(** *** [get_todays_matches] of the three managers, request included *)

(** [TennisDataManager.get_todays_matches()]: [simulated] is the list
    [_get_simulated_matches()] draws.  The request and the formatting are
    outside any [try]: [None] when one of them raises. *)
Definition get_todays_matches_tennis (api_key : string) (resp : http_response)
    (simulated : list tennis_match) : option (list tennis_match) :=
  if negb (String.eqb api_key "") then
    let* matches_data := _make_request resp in
    match matches_data with
    | Some d =>
        if truthy d then
          let* batch := py_slice d 10 in
          Some (format_records format_tennis_match batch)
        else Some simulated
    | None => Some simulated
    end
  else Some simulated.

(** [BasketballDataManager.get_todays_matches()], the same shape with the
    window of 15 games. *)
Definition get_todays_matches_basketball (api_key : string) (resp : http_response)
    (simulated : list basketball_game) : option (list basketball_game) :=
  if negb (String.eqb api_key "") then
    let* games_data := _make_request resp in
    match games_data with
    | Some d =>
        if truthy d then
          let* batch := py_slice d 15 in
          Some (format_records format_basketball_game batch)
        else Some simulated
    | None => Some simulated
    end
  else Some simulated.

(** [FootballDataManager.get_todays_matches()] with the request of
    [get_football_fixtures()], which runs inside the [try]: an exception of
    the request, a value that is not iterable and a falsy value all lead to
    the simulated list; an iterable value is the loop of
    [get_todays_matches_football]. *)
Definition get_todays_matches_football_req (api_key : string) (resp : http_response)
  : list football_match :=
  if String.eqb api_key "" then simulated_football_matches else
  match _make_request resp with
  | None => simulated_football_matches
  | Some None => get_todays_matches_football api_key None
  | Some (Some fixtures) =>
      match py_iter fixtures with
      | Some fs => get_todays_matches_football api_key (Some fs)
      | None => simulated_football_matches
      end
  end.

(** *** [FootballDataManager.get_standings] *)

Record standing_row := {
  sr_position : json; sr_team : json; sr_played : json; sr_won : json;
  sr_draw : json; sr_lost : json; sr_gf : json; sr_ga : json;
  sr_gd : json; sr_points : json
}.

(** [self.leagues.get(code, {}).get('name')] for a league code. *)
Definition league_name_of_code (code : string) : option string :=
  match find (fun '(c, _, _) => String.eqb c code) leagues with
  | Some (_, _, name) => Some name
  | None => None
  end.

(** [for i, x in enumerate(xs, i0)] building one item per element. *)
Fixpoint enumerate_from {A B : Type} (f : Z -> A -> B) (i : Z) (xs : list A) : list B :=
  match xs with
  | [] => []
  | x :: rest => f i x :: enumerate_from f (i + 1) rest
  end.

Definition simulated_standing (i : Z) (team : string) : standing_row :=
  {| sr_position := JNum i; sr_team := JStr team; sr_played := JNum 20;
     sr_won := JNum 10; sr_draw := JNum 5; sr_lost := JNum 5;
     sr_gf := JNum 30; sr_ga := JNum 20; sr_gd := JNum 10; sr_points := JNum 35 |}.

(** [_get_simulated_standings(league_code)] *)
Definition _get_simulated_standings (league_code : string) : string * list standing_row :=
  (match league_name_of_code league_code with Some n => n | None => "Unknown League" end,
   enumerate_from simulated_standing 1 ["Team A"; "Team B"; "Team C"; "Team D"; "Team E"]).

(** One row of the loop of lines 68-80. *)
Definition map_standing (rank : json) : option standing_row :=
  let* position := py_get rank "rank" JNull in
  let* t := py_get rank "team" (JObj []) in
  let* team := py_get t "name" JNull in
  let* a1 := py_get rank "all" (JObj []) in
  let* played := py_get a1 "played" JNull in
  let* a2 := py_get rank "all" (JObj []) in
  let* won := py_get a2 "win" JNull in
  let* a3 := py_get rank "all" (JObj []) in
  let* draw := py_get a3 "draw" JNull in
  let* a4 := py_get rank "all" (JObj []) in
  let* lost := py_get a4 "lose" JNull in
  let* a5 := py_get rank "all" (JObj []) in
  let* g5 := py_get a5 "goals" (JObj []) in
  let* gf := py_get g5 "for" JNull in
  let* a6 := py_get rank "all" (JObj []) in
  let* g6 := py_get a6 "goals" (JObj []) in
  let* ga := py_get g6 "against" JNull in
  let* gd := py_get rank "goalsDiff" JNull in
  let* points := py_get rank "points" JNull in
  Some {| sr_position := position; sr_team := team; sr_played := played; sr_won := won;
          sr_draw := draw; sr_lost := lost; sr_gf := gf; sr_ga := ga; sr_gd := gd;
          sr_points := points |}.

(** [get_standings(league_code)]; [resp] answers the request of
    [get_football_standings(league_id)], which runs inside the [try]. *)
Definition get_standings_football (api_key league_code : string) (resp : http_response)
  : string * list standing_row :=
  let simulated := _get_simulated_standings league_code in
  match league_name_of_code league_code with
  | None => simulated
  | Some league_name =>
      if String.eqb api_key "" then simulated else
      let attempt :=
        let* data := _make_request resp in
        match data with
        | None => Some simulated
        | Some d =>
            if negb (truthy d) then Some simulated else
            let* d0 := py_index0 d in
            let* lg := py_get d0 "league" (JObj []) in
            let* sts := py_get lg "standings" JNull in
            if negb (truthy sts) then Some simulated else
            let* d0' := py_index0 d in
            let* lg' := py_getitem d0' "league" in
            let* sts' := py_getitem lg' "standings" in
            let* api_standings := py_index0 sts' in
            let* ranks := py_iter api_standings in
            let* standings := map_all map_standing ranks in
            Some (league_name, standings)
        end in
      match attempt with Some r => r | None => simulated end
  end.

(** The body the standings endpoint sends: one entry whose league holds
    the given groups. *)
Definition standings_payload (groups : list json) : http_response :=
  Body (JObj [("response", JList [JObj [("league", JObj [("standings", JList groups)])]])]).

(** *** [DataManager.get_standings] (bot.py) *)

(** [random.randint(a, b)] that returned [v]; an empty range ([a > b])
    raises [ValueError]. *)
Definition randint (a b v : Z) : option Z := if a <=? b then Some v else None.

(** The values [random.randint] returns for one team, in call order. *)
Record standing_draws := {
  sd_played : Z; sd_won : Z; sd_draw : Z; sd_gf : Z; sd_ga : Z
}.

Record bot_standing := {
  bs_position : Z; bs_team : string; bs_played : Z; bs_won : Z; bs_draw : Z;
  bs_lost : Z; bs_gf : Z; bs_ga : Z; bs_gd : Z; bs_points : Z
}.

Definition bot_leagues : list (string * string) :=
  [("SA", "🇮🇹 Serie A");
   ("PL", "🏴󠁧󠁢󠁥󠁮󠁧󠁿 Premier League");
   ("PD", "🇪🇸 La Liga");
   ("BL1", "🇩🇪 Bundesliga")].

Definition teams_map : list (string * list string) :=
  [("SA", ["Inter"; "Milan"; "Juventus"; "Napoli"; "Roma"; "Lazio"; "Atalanta"; "Fiorentina"]);
   ("PL", ["Man City"; "Liverpool"; "Arsenal"; "Chelsea"; "Man Utd"; "Tottenham"; "Newcastle"; "Aston Villa"]);
   ("PD", ["Barcelona"; "Real Madrid"; "Atletico"; "Sevilla"; "Valencia"; "Betis"; "Villarreal"; "Athletic"]);
   ("BL1", ["Bayern"; "Dortmund"; "Leipzig"; "Leverkusen"; "Frankfurt"; "Wolfsburg"; "Gladbach"; "Hoffenheim"])].

(** The body of the loop of lines 114-137 for the team at position [i]. *)
Definition bot_standing_row (i : Z) (team : string) (d : standing_draws) : option bot_standing :=
  let* played := randint 20 30 (sd_played d) in
  let* won := randint (played / 2) (played - 5) (sd_won d) in
  let* draw := randint 3 (played - won - 3) (sd_draw d) in
  let lost := played - won - draw in
  let* gf := randint 30 70 (sd_gf d) in
  let* ga := randint 15 50 (sd_ga d) in
  let gd := gf - ga in
  let points := won * 3 + draw in
  Some {| bs_position := i; bs_team := team; bs_played := played; bs_won := won;
          bs_draw := draw; bs_lost := lost; bs_gf := gf; bs_ga := ga; bs_gd := gd;
          bs_points := points |}.

(** The loop over [enumerate(teams, 1)]; [draws k] are the values drawn for
    the [k]-th team (from 0). *)
Fixpoint bot_standing_rows (draws : nat -> standing_draws) (k : nat) (teams : list string)
  : option (list bot_standing) :=
  match teams with
  | [] => Some []
  | t :: rest =>
      let* r := bot_standing_row (Z.of_nat (S k)) t (draws k) in
      let* rs := bot_standing_rows draws (S k) rest in
      Some (r :: rs)
  end.

(** [list.sort(key=lambda x: x['points'], reverse=True)]: stable, so rows
    with equal points keep their order.  Insertion sort: [r] precedes the
    rows of [l] in the input. *)
Fixpoint insert_by_points (r : bot_standing) (l : list bot_standing) : list bot_standing :=
  match l with
  | [] => [r]
  | q :: rest => if bs_points q <=? bs_points r then r :: l else q :: insert_by_points r rest
  end.

Fixpoint sort_by_points_desc (l : list bot_standing) : list bot_standing :=
  match l with
  | [] => []
  | r :: rest => insert_by_points r (sort_by_points_desc rest)
  end.

(** [DataManager.get_standings(league_code)]; [None] when a [randint]
    raises. *)
Definition get_standings_bot (league_code : string) (draws : nat -> standing_draws)
  : option (string * list bot_standing) :=
  match find (fun '(c, _) => String.eqb c league_code) bot_leagues with
  | None => Some ("Unknown", [])
  | Some (_, league_name) =>
      let teams :=
        match find (fun '(c, _) => String.eqb c league_code) teams_map with
        | Some (_, ts) => ts
        | None => []
        end in
      let* standings := bot_standing_rows draws 0 teams in
      Some (league_name, sort_by_points_desc standings)
  end.

(** *** Further operations of [DatabaseManager] *)

(** Appends a row to the table of the variant [v]. *)
Definition add_prediction (v : variant) (st : db) (p : prediction_row) : db :=
  {| users := users st; next_user_id := next_user_id st;
     predictions := match v with Football => predictions st ++ [p] | _ => predictions st end;
     tennis_predictions :=
       match v with Tennis => tennis_predictions st ++ [p] | _ => tennis_predictions st end;
     basketball_predictions :=
       match v with Basketball => basketball_predictions st ++ [p] | _ => basketball_predictions st end |}.

(** [save_prediction], [save_tennis_prediction] and
    [save_basketball_prediction]: the same code over the table of [v].  The
    row keeps the columns [prediction_row] records (the names, league and
    probabilities are stored as given); [is_correct] is NULL, [created_at]
    is the current time [now] and [pid] is the key the table's sequence
    hands out. *)
Definition save_prediction (v : variant) (st : db) (now tid pid : Z) : prediction_row * db :=
  let '(user, st1) := get_or_create_user st now tid None None None in
  let prediction := {| p_id := pid; p_user_id := u_id user; p_is_correct := None;
                       p_created_at := now |} in
  (prediction, add_prediction v st1 prediction).

(** A row of [value_bets], restricted to the columns
    [get_todays_value_bets] reads; each of them may be NULL. *)
Record value_bet := {
  vb_id : Z;
  vb_is_active : option bool;
  vb_expires_at : option Z;
  vb_edge : option Q
}.

(** [timedelta(days=1)] in the time unit of the timestamps (seconds). *)
Definition one_day : Z := 86400.

(** [is_active == True AND expires_at > today AND expires_at < tomorrow];
    a comparison with NULL is not true. *)
Definition value_bet_filter (today : Z) (b : value_bet) : bool :=
  match vb_is_active b, vb_expires_at b with
  | Some true, Some e => (today <? e) && (e <? today + one_day)
  | _, _ => false
  end.

(** Position in [ORDER BY edge DESC] on PostgreSQL: NULL sorts first.
    [edge_ge a b] holds when an edge [a] may come before an edge [b]. *)
Definition edge_ge (a b : option Q) : bool :=
  match a, b with
  | None, _ => true
  | Some _, None => false
  | Some x, Some y => Qle_bool y x
  end.

Fixpoint insert_by_edge (b : value_bet) (l : list value_bet) : list value_bet :=
  match l with
  | [] => [b]
  | c :: rest => if edge_ge (vb_edge b) (vb_edge c) then b :: l else c :: insert_by_edge b rest
  end.

(** [ORDER BY edge DESC]: the database leaves the order of rows with equal
    edges open; this insertion sort keeps them in input order, one of the
    orders the query may return.  The statements below hold for every
    such order. *)
Fixpoint order_by_edge_desc (l : list value_bet) : list value_bet :=
  match l with
  | [] => []
  | b :: rest => insert_by_edge b (order_by_edge_desc rest)
  end.

(** [get_todays_value_bets()] at time [today] ([datetime.utcnow()]). *)
Definition get_todays_value_bets (bets : list value_bet) (today : Z) : list value_bet :=
  firstn 10 (order_by_edge_desc (filter (value_bet_filter today) bets)).

Definition is_correct_true (p : prediction_row) : bool :=
  match p_is_correct p with Some true => true | _ => false end.

Definition is_pending (p : prediction_row) : bool :=
  match p_is_correct p with None => true | Some _ => false end.

(** The system accuracy of [dbstats_command] (bot.py) over the football
    predictions table. *)
Definition system_accuracy (ps : list prediction_row) : Q :=
  let total_predictions := Z.of_nat (List.length ps) in
  let correct_predictions := Z.of_nat (List.length (filter is_correct_true ps)) in
  let pending_predictions := Z.of_nat (List.length (filter is_pending ps)) in
  if 0 <? total_predictions - pending_predictions
  then (inject_Z correct_predictions / inject_Z (total_predictions - pending_predictions) * 100)%Q
  else 0%Q.

(** *** Access control of the bot (bot.py) *)

(** [str.isspace] on a Latin-1 code point. *)
Definition py_isspace (c : ascii) : bool :=
  let n := ord c in
  ((9 <=? n) && (n <=? 13)) || ((28 <=? n) && (n <=? 32)) || (n =? 133) || (n =? 160).

(** [str.lower] *)
Fixpoint py_lower (s : string) : string :=
  match s with
  | EmptyString => EmptyString
  | String c rest => String (ascii_of_nat (Z.to_nat (lower_code (ord c)))) (py_lower rest)
  end.

(** [s.split()]: the maximal runs of non-whitespace characters. *)
Fixpoint split_go (s : string) : string * list string :=
  match s with
  | EmptyString => (EmptyString, [])
  | String c rest =>
      let '(w, ws) := split_go rest in
      if py_isspace c then (EmptyString, if String.eqb w "" then ws else w :: ws)
      else (String c w, ws)
  end.

Definition py_split (s : string) : list string :=
  let '(w, ws) := split_go s in if String.eqb w "" then ws else w :: ws.

(** [x in s] for a set of integers. *)
Definition py_in (x : Z) (s : list Z) : bool := existsb (Z.eqb x) s.

(** [INVITE_ONLY = os.environ.get("INVITE_ONLY", "true").lower() == "true"] *)
Definition invite_only_of_env (env : option string) : bool :=
  String.eqb (py_lower (match env with Some s => s | None => "true" end)) "true".

(** [SimpleUserStorage.is_user_allowed] *)
Definition is_user_allowed (invite_only : bool) (allowed : list Z) (user_id : Z) : bool :=
  if negb invite_only then true else py_in user_id allowed.

(** [SimpleUserStorage.add_user]: the answer and the new set. *)
Definition add_user (allowed : list Z) (user_id : Z) : bool * list Z :=
  if negb (py_in user_id allowed) then (true, (allowed ++ [user_id])%list) else (false, allowed).

(** What the wrapper sees of an update: the sender, and the message when
    there is one ([None] for a button press), with its text when it has
    one. *)
Record tg_update := {
  upd_user_id : Z;
  upd_message : option (option string)
}.

Inductive access_outcome := RunHandler | InviteAccepted | AccessRestricted.

(** [access_control(func)] applied to one update: what happens and the
    allowed set afterwards; [None] when it raises ([update.message] is
    [None] and [reply_text] is called on it). *)
Definition access_control (invite_only : bool) (allowed : list Z) (u : tg_update)
  : option (access_outcome * list Z) :=
  let user_id := upd_user_id u in
  if is_user_allowed invite_only allowed user_id then Some (RunHandler, allowed) else
  match upd_message u with
  | None => None
  | Some text =>
      match text with
      | Some t =>
          if negb (String.eqb t "") && String.prefix "/start" t then
            let parts := py_split t in
            if Nat.ltb 1 (List.length parts) && String.eqb (nth 1 parts "") "invite123"
            then Some (InviteAccepted, snd (add_user allowed user_id))
            else Some (AccessRestricted, allowed)
          else Some (AccessRestricted, allowed)
      | None => Some (AccessRestricted, allowed)
      end
  end.

(** *** Admin identifiers (bot.py, check_admin.py) *)

(** [s.split(sep)]: the pieces between the separators, at least one. *)
Fixpoint split_on (sep : ascii) (s : string) : list string :=
  match s with
  | EmptyString => [EmptyString]
  | String c rest =>
      let ps := split_on sep rest in
      if Ascii.eqb c sep then EmptyString :: ps
      else match ps with
           | p :: ps' => String c p :: ps'
           | [] => [String c EmptyString]
           end
  end.

Fixpoint lstrip (s : string) : string :=
  match s with
  | EmptyString => EmptyString
  | String c rest => if py_isspace c then lstrip rest else s
  end.

Fixpoint rstrip (s : string) : string :=
  match s with
  | EmptyString => EmptyString
  | String c rest =>
      let r := rstrip rest in
      if String.eqb r "" && py_isspace c then EmptyString else String c r
  end.

(** [str.strip()] *)
Definition py_strip (s : string) : string := lstrip (rstrip s).

(** [str.isdigit()] on Latin-1: the ASCII digits and the superscripts
    one, two and three. *)
Definition py_isdigit_char (c : ascii) : bool :=
  is_digit c || (ord c =? 178) || (ord c =? 179) || (ord c =? 185).

Definition py_isdigit (s : string) : bool :=
  negb (String.eqb s "") && forallb py_isdigit_char (list_ascii_of_string s).

(** [int(s)] on a string of [isdigit] characters: only ASCII digits are
    decimal digits; a superscript raises [ValueError] ([None]). *)
Fixpoint parse_dec (s : string) (acc : Z) : option Z :=
  match s with
  | EmptyString => Some acc
  | String c rest => if is_digit c then parse_dec rest (acc * 10 + (ord c - 48)) else None
  end.

Definition py_int (s : string) : option Z := parse_dec s 0.

(** [str(n)] for an integer. *)
Definition digit_char (d : Z) : ascii := ascii_of_nat (Z.to_nat (48 + d)).

Fixpoint str_digits (fuel : nat) (n : Z) (acc : string) : string :=
  match fuel with
  | O => acc
  | S f =>
      if n <? 10 then String (digit_char n) acc
      else str_digits f (n / 10) (String (digit_char (n mod 10)) acc)
  end.

Definition py_str_int (z : Z) : string :=
  if z <? 0 then "-" ++ str_digits (S (Z.to_nat (- z))) (- z) ""
  else str_digits (S (Z.to_nat z)) z "".

(** [ADMIN_USER_ID = os.environ.get("ADMIN_USER_ID", "").split(",")] *)
Definition ADMIN_USER_ID (env : option string) : list string :=
  split_on "," (match env with Some s => s | None => "" end).

(** The loop of [SimpleUserStorage.__init__]: [None] when [int] raises. *)
Fixpoint add_admins (allowed : list Z) (ids : list string) : option (list Z) :=
  match ids with
  | [] => Some allowed
  | admin_id :: rest =>
      if py_isdigit (py_strip admin_id) then
        let* n := py_int (py_strip admin_id) in
        add_admins (snd (add_user allowed n)) rest
      else add_admins allowed rest
  end.

(** [user_storage.allowed_users] right after start-up. *)
Definition initial_allowed_users (env : option string) : option (list Z) :=
  add_admins [] (ADMIN_USER_ID env).

(** The admin test of [admin_command] and [dbstats_command]:
    [str(user_id) in ADMIN_USER_ID]. *)
Definition is_admin (env : option string) (user_id : Z) : bool :=
  existsb (String.eqb (py_str_int user_id)) (ADMIN_USER_ID env).

(** [admin_ids] of check_admin.py. *)
Fixpoint check_admin_ids (ids : list string) : option (list Z) :=
  match ids with
  | [] => Some []
  | a :: rest =>
      let admin_id := py_strip a in
      if negb (String.eqb admin_id "") && py_isdigit admin_id then
        let* n := py_int admin_id in
        let* ns := check_admin_ids rest in
        Some (n :: ns)
      else check_admin_ids rest
  end.

(** The storage of check_admin.py: [set(admin_ids)]. *)
Definition check_admin_storage (env : option string) : option (list Z) :=
  let* ids := check_admin_ids (split_on "," (match env with Some s => s | None => "" end)) in
  Some (fold_left (fun s n => snd (add_user s n)) ids []).

(** *** Grouping of the match list by league ([todays_matches_command]) *)

(** [if k not in groups: groups[k] = []] then [groups[k].append(x)], with
    a dict keeping its insertion order. *)
Fixpoint group_insert {A : Type} (k : string) (x : A) (groups : list (string * list A))
  : list (string * list A) :=
  match groups with
  | [] => [(k, [x])]
  | (k', xs) :: rest =>
      if String.eqb k k' then (k', (xs ++ [x])%list) :: rest
      else (k', xs) :: group_insert k x rest
  end.

Definition group_by {A : Type} (key : A -> string) (xs : list A) : list (string * list A) :=
  fold_left (fun groups x => group_insert (key x) x groups) xs [].

(** The distinct keys in order of first appearance. *)
Fixpoint first_appearance (seen : list string) (ks : list string) : list string :=
  match ks with
  | [] => []
  | k :: rest =>
      if existsb (String.eqb k) seen then first_appearance seen rest
      else k :: first_appearance (k :: seen) rest
  end.

(** *** Simulated schedules ([_get_simulated_matches], [_get_simulated_games]) *)

(** The pairing loop shared by the two generators: at iteration [k]
    [available] is the pool minus the used names, reset to the whole pool
    when fewer than two are left; [sample k available] is what
    [random.sample(available, 2)] returns. *)
Fixpoint pick_pairs (pool : list string) (sample : nat -> list string -> string * string)
    (k : nat) (used : list string) (n : nat) : list (string * string) :=
  match n with
  | O => []
  | S n' =>
      let available := filter (fun p => negb (existsb (String.eqb p) used)) pool in
      let '(available, used) :=
        if Nat.ltb (List.length available) 2 then (pool, []) else (available, used) in
      let '(a, b) := sample k available in
      (a, b) :: pick_pairs pool sample (S k) (b :: a :: used) n'
  end.

(** [random.sample(l, 2)] picks two items at distinct positions. *)
Definition valid_sampler (sample : nat -> list string -> string * string) : Prop :=
  forall k l, (2 <= List.length l)%nat ->
    exists i j, i <> j /\ (i < List.length l)%nat /\ (j < List.length l)%nat /\
      sample k l = (nth i l "", nth j l "").

Fixpoint mapi_from {A B : Type} (f : nat -> A -> B) (k : nat) (xs : list A) : list B :=
  match xs with
  | [] => []
  | x :: rest => f k x :: mapi_from f (S k) rest
  end.

Definition tennis_players : list string :=
  ["Novak Djokovic"; "Carlos Alcaraz"; "Daniil Medvedev"; "Jannik Sinner";
   "Alexander Zverev"; "Andrey Rublev"; "Stefanos Tsitsipas"; "Holger Rune";
   "Taylor Fritz"; "Casper Ruud"; "Grigor Dimitrov"; "Tommy Paul";
   "Iga Swiatek"; "Aryna Sabalenka"; "Coco Gauff"; "Elena Rybakina";
   "Jessica Pegula"; "Ons Jabeur"; "Qinwen Zheng"; "Karolina Muchova"].

Definition tournaments_list : list string :=
  ["Australian Open"; "Miami Open"; "Indian Wells"; "Madrid Open";
   "Rome Masters"; "Dubai Championships"; "ATP Finals"].

Definition tennis_rounds : list string := ["R64"; "R32"; "R16"; "QF"; "SF"; "F"].

(** The other values drawn in one iteration: indices chosen by
    [random.choice] and the hour of [random.randint(10, 20)]. *)
Record tennis_sim_draws := {
  ts_tournament : nat; ts_surface : nat; ts_hour : Z; ts_half : bool; ts_round : nat
}.

(** [TennisDataManager._get_simulated_matches()]; [num_matches] is the
    value of [random.randint(4, 8)]. *)
Definition _get_simulated_matches_tennis (num_matches : Z)
    (sample : nat -> list string -> string * string) (draws : nat -> tennis_sim_draws)
  : list tennis_match :=
  mapi_from (fun k '(player1, player2) =>
      let d := draws k in
      {| tm_player1 := JStr player1; tm_player2 := JStr player2;
         tm_tournament := JStr (nth (ts_tournament d) tournaments_list "");
         tm_surface := JStr (nth (ts_surface d) surfaces "");
         tm_time := JStr (py_str_int (ts_hour d) ++ ":" ++ (if ts_half d then "30" else "00"));
         tm_round := JStr (nth (ts_round d) tennis_rounds "") |})
    0 (pick_pairs tennis_players sample 0 [] (Z.to_nat num_matches)).

Definition nba_teams : list string :=
  ["LA Lakers"; "GS Warriors"; "Boston Celtics"; "Denver Nuggets";
   "Miami Heat"; "Milwaukee Bucks"; "Phoenix Suns"; "Dallas Mavericks";
   "NY Knicks"; "Philadelphia 76ers"; "LA Clippers"; "Chicago Bulls"].

(** [BasketballDataManager._get_simulated_games()]; [num_games] is the value
    of [random.randint(5, 10)] and [hour k] that of [random.randint(7, 10)]
    in iteration [k]. *)
Definition _get_simulated_games (num_games : Z)
    (sample : nat -> list string -> string * string) (hour : nat -> Z)
  : list basketball_game :=
  mapi_from (fun k '(home, away) =>
      {| bg_home_team := JStr home; bg_away_team := JStr away; bg_league := JStr "NBA";
         bg_time := JStr (py_str_int (hour k) ++ ":30 PM"); bg_date := JStr "Tonight" |})
    0 (pick_pairs nba_teams sample 0 [] (Z.to_nat num_games)).

(** *** Predicates used in the statements *)

(** A nonempty string of ASCII digits. *)
Definition digit_string (s : string) : Prop :=
  s <> EmptyString /\ forallb is_digit (list_ascii_of_string s) = true.

(** The names of a list of pairs, in order. *)
Fixpoint pair_list (ps : list (string * string)) : list string :=
  match ps with
  | [] => []
  | p :: rest => fst p :: snd p :: pair_list rest
  end.

(** The values [random.randint] can return for one team of
    [DataManager.get_standings]: each lies in its range, which is therefore
    not empty. *)
Definition valid_draw (d : standing_draws) : Prop :=
  20 <= sd_played d <= 30 /\
  sd_played d / 2 <= sd_won d <= sd_played d - 5 /\
  3 <= sd_draw d <= sd_played d - sd_won d - 3 /\
  30 <= sd_gf d <= 70 /\ 15 <= sd_ga d <= 50.

(** The relations a row of the bot's standings keeps between its columns. *)
Definition bot_row_ok (r : bot_standing) : Prop :=
  20 <= bs_played r <= 30 /\ 3 <= bs_draw r /\ 3 <= bs_lost r /\
  bs_won r + bs_draw r + bs_lost r = bs_played r /\
  bs_points r = 3 * bs_won r + bs_draw r /\ bs_gd r = bs_gf r - bs_ga r.

(** [a] may come before [b] in a list sorted by decreasing points. *)
Definition points_ge (a b : bot_standing) : Prop := bs_points b <= bs_points a.

(** [a] may come before [b] in [ORDER BY edge DESC] (NULL first). *)
Definition edge_before (a b : value_bet) : Prop := edge_ge (vb_edge a) (vb_edge b) = true.

(** ** Sample data *)

(** A Serie A fixture as the football API sends it. *)
Definition sample_fixture : json :=
  JObj [("fixture", JObj [("id", JNum 1); ("date", JStr "2024-05-01T18:45:00+00:00")]);
        ("league", JObj [("id", JNum 135); ("name", JStr "Serie A")]);
        ("teams", JObj [("home", JObj [("name", JStr "Inter")]);
                        ("away", JObj [("name", JStr "Milan")])])].

(** A Serie A fixture whose [fixture] object is missing: the loop body
    calls [None.replace] on it. *)
Definition fixture_without_date : json :=
  JObj [("league", JObj [("id", JNum 135)]);
        ("teams", JObj [("home", JObj [("name", JStr "Roma")]);
                        ("away", JObj [("name", JStr "Lazio")])])].

(** A store holding one user, platform id 42, username "bob". *)
Definition sample_db : db :=
  {| users := [{| u_id := 1; u_telegram_id := 42; u_username := Some "bob";
                  u_first_name := Some "Bob"; u_last_name := None;
                  u_created_at := 0; u_last_seen := 0 |}];
     next_user_id := 2;
     predictions := []; tennis_predictions := []; basketball_predictions := [] |}.

(** [sample_db] with three football predictions of user 1, one of them
    settled as correct. *)
Definition stats_db : db :=
  {| users := users sample_db; next_user_id := next_user_id sample_db;
     predictions :=
       [{| p_id := 1; p_user_id := 1; p_is_correct := Some true; p_created_at := 10 |};
        {| p_id := 2; p_user_id := 1; p_is_correct := Some false; p_created_at := 20 |};
        {| p_id := 3; p_user_id := 1; p_is_correct := None; p_created_at := 30 |}];
     tennis_predictions := []; basketball_predictions := [] |}.

(** Creation order: [p] comes before [q] in a newest-first listing. *)
Definition newer_or_same (p q : prediction_row) : Prop := p_created_at q <= p_created_at p.

(** Number of user rows carrying a given platform id. *)
Definition count_tid (tid : Z) (us : list user_row) : nat :=
  List.length (filter (fun u => u_telegram_id u =? tid) us).

(** * Properties *)

Example inter_score : char_score "Inter" = 46. Proof. reflexivity. Qed.
Example milan_score : char_score "Milan" = 29. Proof. reflexivity. Qed.
Example inter_milan_run :
  option_map (fun r => (fr_home r, fr_draw r, fr_away r, fr_prediction r, fr_confidence r))
    (analyze_match_football "Inter" "Milan" 5) =
  Some ((547 # 10)%Q, (200 # 10)%Q, (320 # 10)%Q, "1"%string, (547 # 10)%Q).
Proof. vm_compute. reflexivity. Qed.

(** ** Arithmetic toolkit *)

Lemma Qltb_true a b : Qltb a b = true <-> (a < b)%Q.
Proof.
  unfold Qltb. rewrite negb_true_iff.
  split; intro H.
  - apply Qnot_le_lt. intro H'. apply Qle_bool_iff in H'. congruence.
  - destruct (Qle_bool b a) eqn:E; [|reflexivity].
    apply Qle_bool_iff in E. exfalso. apply (Qlt_not_le a b); assumption.
Qed.

Lemma Qltb_false a b : Qltb a b = false <-> (b <= a)%Q.
Proof.
  unfold Qltb. rewrite negb_false_iff. apply Qle_bool_iff.
Qed.

Ltac qltb_cases :=
  repeat match goal with
  | |- context [Qltb ?a ?b] =>
      let E := fresh "E" in
      destruct (Qltb a b) eqn:E;
      [apply Qltb_true in E | apply Qltb_false in E]
  end.

Lemma char_score_range s : 0 <= char_score s < 100.
Proof. unfold char_score. apply Z.mod_pos_bound. lia. Qed.

Lemma char_score_empty : char_score "" = 0.
Proof. reflexivity. Qed.

Lemma inject_Z_pos (z : Z) : 0 < z -> (0 < inject_Z z)%Q.
Proof. intro H. change 0%Q with (inject_Z 0). rewrite <- Zlt_Qlt. exact H. Qed.

Lemma inject_Z_nonneg (z : Z) : 0 <= z -> (0 <= inject_Z z)%Q.
Proof. intro H. change 0%Q with (inject_Z 0). rewrite <- Zle_Qle. exact H. Qed.

(** The normalized share of one side: [score / total * 100]. *)
Definition share (x total : Z) : Q := (inject_Z x / inject_Z total * 100)%Q.

Lemma share_sum x y : 0 < x + y -> (share x (x + y) + share y (x + y) == 100)%Q.
Proof.
  intro H. unfold share.
  assert (P := inject_Z_pos _ H). rewrite inject_Z_plus in *.
  field. intro E. rewrite E in P. apply (Qlt_irrefl 0). exact P.
Qed.

Lemma share_nonneg x t : 0 <= x -> 0 < t -> (0 <= share x t)%Q.
Proof.
  intros Hx H. unfold share.
  apply Qmult_le_0_compat; [|discriminate].
  apply Qle_shift_div_l; [apply inject_Z_pos; exact H|].
  rewrite Qmult_0_l. apply inject_Z_nonneg. exact Hx.
Qed.

Lemma py_div_nonzero a b : ~ (b == 0)%Q -> py_div a b = Some (a / b)%Q.
Proof.
  intro H. unfold py_div. destruct (Qeq_bool b 0) eqn:E; [|reflexivity].
  apply Qeq_bool_iff in E. contradiction.
Qed.

Lemma inject_Z_neq0 z : 0 < z -> ~ (inject_Z z == 0)%Q.
Proof.
  intros H E. assert (P := inject_Z_pos _ H). rewrite E in P.
  apply (Qlt_irrefl 0). exact P.
Qed.

(** *** Rounding *)

Lemma round_half_even_err y :
  (- (1 # 2) <= inject_Z (round_half_even y) - y <= 1 # 2)%Q.
Proof.
  assert (F1 := Qfloor_le y). assert (F2 := Qlt_floor y).
  rewrite inject_Z_plus in F2.
  unfold round_half_even.
  qltb_cases; try destruct (Z.even (Qfloor y));
    rewrite ?inject_Z_plus in *; change (inject_Z 1) with 1%Q in *; lra.
Qed.

Lemma round1_err x : (- (1 # 20) <= round1 x - x <= 1 # 20)%Q.
Proof.
  unfold round1. rewrite (Qmake_Qdiv (round_half_even (x * 10)) 10).
  assert (E := round_half_even_err (x * 10)).
  set (n := inject_Z (round_half_even (x * 10))) in *.
  change (inject_Z (Z.pos 10)) with 10%Q.
  assert (R : (n / 10 * 10 == n)%Q) by field.
  lra.
Qed.

(** *** Football *)

Lemma football_scores_range h a x y :
  football_scores h a = (x, y) -> 0 <= x < 100 /\ 0 <= y < 100 /\ 0 < x + y.
Proof.
  unfold football_scores. intro H.
  assert (R1 := char_score_range h). assert (R2 := char_score_range a).
  destruct (char_score h + char_score a =? 0) eqn:E; inversion H; subst.
  - lia.
  - apply Z.eqb_neq in E. lia.
Qed.

Lemma football_probs_spec h a x y :
  football_scores h a = (x, y) ->
  football_probs h a =
    Some ((share x (x + y) - 20 / 3)%Q, 20%Q, (share y (x + y) - 20 / 3)%Q).
Proof.
  intro H. assert (R := football_scores_range _ _ _ _ H).
  unfold football_probs. rewrite H.
  rewrite !py_div_nonzero by (apply inject_Z_neq0; lia).
  assert (S := share_sum x y ltac:(lia)). unfold share in S.
  unfold py_max2. qltb_cases; [lra|]. reflexivity.
Qed.

(** Rational facts behind the football claims, for a pair of shares
    summing to 100. *)
Lemma football_label_not_draw hp ap :
  (hp + ap == 100)%Q -> football_label (hp - 20 / 3) 20 (ap - 20 / 3) <> "X".
Proof.
  intro S. unfold football_label. assert (T : (20 / 3 == 20 # 3)%Q) by reflexivity.
  qltb_cases; simpl; try discriminate; intros _; rewrite T in *; lra.
Qed.

Lemma football_draw_is_20 x y :
  0 < x + y -> py_max2 20 (100 - share x (x + y) - share y (x + y)) = 20%Q.
Proof.
  intro H. assert (S := share_sum x y H).
  unfold py_max2. qltb_cases; [lra | reflexivity].
Qed.

Lemma analyze_match_football_spec h a e x y :
  football_scores h a = (x, y) ->
  let hp := (share x (x + y) - 20 / 3)%Q in
  let ap := (share y (x + y) - 20 / 3)%Q in
  exists odds,
    analyze_match_football h a e =
      Some {| fr_home := round1 hp; fr_draw := round1 20; fr_away := round1 ap;
              fr_prediction := football_label hp 20 ap;
              fr_confidence := round1 (py_max3 hp 20 ap);
              fr_goals_home := Z.max 0 (round_half_even (inject_Z x / 100 * 3)%Q);
              fr_goals_away := Z.max 0 (round_half_even (inject_Z y / 100 * 2)%Q);
              fr_selection := football_label hp 20 ap;
              fr_odds := round2 odds;
              fr_edge := round1 e |}.
Proof.
  intros H hp ap.
  assert (R := football_scores_range _ _ _ _ H).
  assert (S := share_sum x y ltac:(lia)).
  assert (T : (20 / 3 == 20 # 3)%Q) by reflexivity.
  unfold analyze_match_football. rewrite H, (football_probs_spec _ _ _ _ H).
  fold hp ap.
  unfold football_label. qltb_cases; cbn -[py_div round1 round2 py_max3 round_half_even share Qdiv Qminus];
    (rewrite py_div_nonzero;
     [eexists; reflexivity
     | unfold hp, ap in *; rewrite T in *; intro Z0;
       assert (M : forall q : Q, (q / 100 == 0)%Q -> (q == 0)%Q)
         by (intros q Hq; setoid_replace q with (q / 100 * 100)%Q by field;
             rewrite Hq; reflexivity);
       apply M in Z0; lra]).
Qed.

(** ** Claims on the football estimator *)

(** C1 (amended).  [analyze_match] computes the raw scores of
    [football_scores], the shares [pA], [pB], the draw [d = max(20, 100 - pA - pB)]
    and subtracts [d/3] from each side; the returned probabilities and
    confidence are these values rounded to one decimal, and the label is
    chosen by strict comparison.  On ("Inter", "Milan") the raw scores are 46
    and 29 and the result is home 54.7, draw 20.0, away 32.0, label "1",
    confidence 54.7. *)
Theorem football_analyze_rounded_formula :
  (forall (h a : string) (e : Q),
     let '(x, y) := football_scores h a in
     let pA := share x (x + y) in
     let pB := share y (x + y) in
     let d := py_max2 20 (100 - pA - pB) in
     exists r, analyze_match_football h a e = Some r /\
       fr_home r = round1 (pA - d / 3) /\ fr_draw r = round1 d /\
       fr_away r = round1 (pB - d / 3) /\
       fr_prediction r = football_label (pA - d / 3) d (pB - d / 3) /\
       fr_confidence r = round1 (py_max3 (pA - d / 3) d (pB - d / 3))) /\
  football_scores "Inter" "Milan" = (46, 29) /\
  (forall e : Q,
     option_map (fun r => (fr_home r, fr_draw r, fr_away r, fr_prediction r, fr_confidence r))
       (analyze_match_football "Inter" "Milan" e) =
     Some ((547 # 10)%Q, (200 # 10)%Q, (320 # 10)%Q, "1", (547 # 10)%Q)).
Proof.
  split; [|split; [reflexivity|]].
  - intros h a e.
    destruct (football_scores h a) as [x y] eqn:H.
    assert (R := football_scores_range _ _ _ _ H).
    cbv zeta. rewrite (football_draw_is_20 x y ltac:(lia)).
    destruct (analyze_match_football_spec h a e x y H) as [odds E].
    eexists. rewrite E. repeat split.
  - intro e. unfold analyze_match_football. vm_compute. reflexivity.
Qed.

(** C1 (counterexample).  On ("Inter", "Milan") the returned home
    probability and confidence are 54.7, not the formula's value
    46/75*100 - 20/3 = 164/3. *)
Lemma football_inter_milan_rounded :
  match analyze_match_football "Inter" "Milan" 5 with
  | Some r => ~ (fr_home r == share 46 75 - 20 / 3)%Q /\
              ~ (fr_confidence r == share 46 75 - 20 / 3)%Q
  | None => False
  end.
Proof. vm_compute. split; intro H; discriminate H. Qed.

(** C2 (amended).  For every pair of names the probabilities after the draw
    adjustment are: draw exactly 20, home and away each at least -20/3 (so a
    side can be negative), and their sum is exactly 320/3, never 100. *)
Theorem football_probs_bounds (h a : string) :
  exists hp d ap, football_probs h a = Some (hp, d, ap) /\
    (d == 20)%Q /\ (- (20 / 3) <= hp)%Q /\ (- (20 / 3) <= ap)%Q /\
    (hp + d + ap == 320 / 3)%Q /\ ~ (hp + d + ap == 100)%Q.
Proof.
  destruct (football_scores h a) as [x y] eqn:H.
  assert (R := football_scores_range _ _ _ _ H).
  assert (S := share_sum x y ltac:(lia)).
  assert (N1 := share_nonneg x (x + y) ltac:(lia) ltac:(lia)).
  assert (N2 := share_nonneg y (x + y) ltac:(lia) ltac:(lia)).
  assert (T : (20 / 3 == 20 # 3)%Q) by reflexivity.
  assert (T' : (320 / 3 == 320 # 3)%Q) by reflexivity.
  do 3 eexists. split; [exact (football_probs_spec _ _ _ _ H)|].
  rewrite T, T'. repeat split; lra.
Qed.

(** C2 (counterexample).  "d" (character sum 100) and "a" are non-empty, and
    the home probability after the adjustment is -20/3 < 0. *)
Lemma football_negative_home :
  match football_probs "d" "a" with
  | Some (hp, _, _) => (hp < 0)%Q
  | None => False
  end.
Proof. vm_compute. reflexivity. Qed.

Lemma tenths_sum_ne_320_3 (a b c : Z) :
  ~ ((a # 10) + (b # 10) + (c # 10) == 320 # 3)%Q.
Proof. unfold Qeq, Qplus. simpl. lia. Qed.

(** C10 (amended).  In exact arithmetic the two shares sum to exactly 100,
    so the draw probability [max(20, 100 - probA - probB)] is 20; the larger
    side after the adjustment is at least 50 - 20/3 > 20, so the label is
    never "X"; and the three unrounded probabilities sum to 320/3.  The
    returned probabilities are these values rounded to one decimal: the
    draw is 20.0, and their sum lies within 0.15 of 320/3 but, being a
    multiple of 0.1, never equals it. *)
Theorem football_draw_floor (h a : string) (e : Q) :
  (let '(x, y) := football_scores h a in
   (share x (x + y) + share y (x + y) == 100)%Q /\
   py_max2 20 (100 - share x (x + y) - share y (x + y)) = 20%Q) /\
  exists hp d ap r,
    football_probs h a = Some (hp, d, ap) /\ d = 20%Q /\
    (50 - 20 / 3 <= hp \/ 50 - 20 / 3 <= ap)%Q /\
    football_label hp d ap <> "X" /\
    analyze_match_football h a e = Some r /\ fr_prediction r <> "X" /\
    (hp + d + ap == 320 / 3)%Q /\
    fr_home r = round1 hp /\ fr_away r = round1 ap /\ (fr_draw r == 20)%Q /\
    (320 / 3 - 3 / 20 <= fr_home r + fr_draw r + fr_away r <= 320 / 3 + 3 / 20)%Q /\
    ~ (fr_home r + fr_draw r + fr_away r == 320 / 3)%Q.
Proof.
  destruct (football_scores h a) as [x y] eqn:H.
  assert (R := football_scores_range _ _ _ _ H).
  assert (S := share_sum x y ltac:(lia)).
  assert (T : (20 / 3 == 20 # 3)%Q) by reflexivity.
  assert (T' : (320 / 3 == 320 # 3)%Q) by reflexivity.
  split; [split; [exact S | exact (football_draw_is_20 x y ltac:(lia))]|].
  destruct (analyze_match_football_spec h a e x y H) as [odds E].
  do 4 eexists. split; [exact (football_probs_spec _ _ _ _ H)|].
  split; [reflexivity|].
  split; [rewrite T; lra|].
  split; [apply football_label_not_draw; exact S|].
  split; [exact E|].
  split; [apply football_label_not_draw; exact S|].
  split; [rewrite T, T'; lra|].
  cbn [fr_home fr_draw fr_away].
  assert (D : (round1 20 == 20)%Q) by reflexivity.
  split; [reflexivity|]. split; [reflexivity|]. split; [exact D|].
  split.
  - assert (E1 := round1_err (share x (x + y) - 20 / 3)).
    assert (E2 := round1_err (share y (x + y) - 20 / 3)).
    revert D E1 E2. generalize (round1 20), (round1 (share x (x + y) - 20 / 3)),
      (round1 (share y (x + y) - 20 / 3)). intros u v w D E1 E2.
    assert (T3 : (3 / 20 == 3 # 20)%Q) by reflexivity. rewrite T, T', T3 in *. split; lra.
  - intro Hc. apply (tenths_sum_ne_320_3
      (round_half_even ((share x (x + y) - 20 / 3) * 10))
      (round_half_even (20 * 10)) (round_half_even ((share y (x + y) - 20 / 3) * 10))).
    unfold round1 in Hc. exact (Qeq_trans _ _ _ Hc T').
Qed.

(** C10 (counterexample).  On ("Inter", "Milan") the returned probabilities
    54.7, 20.0 and 32.0 sum to 106.7, not 320/3. *)
Lemma football_returned_sum_not_320_3 :
  match analyze_match_football "Inter" "Milan" 5 with
  | Some r => (fr_home r == 547 # 10)%Q /\ (fr_draw r == 20)%Q /\ (fr_away r == 32)%Q /\
              (fr_home r + fr_draw r + fr_away r == 1067 # 10)%Q /\
              ~ (fr_home r + fr_draw r + fr_away r == 320 / 3)%Q
  | None => False
  end.
Proof. vm_compute. repeat split; try reflexivity. intro H; discriminate H. Qed.

(** *** Tennis *)

Lemma tennis_scores_range p1 p2 x y :
  tennis_scores p1 p2 = (x, y) -> 0 <= x < 100 /\ 0 <= y < 100 /\ 0 < x + y.
Proof.
  unfold tennis_scores. intro H.
  assert (R1 := char_score_range p1). assert (R2 := char_score_range p2).
  destruct (char_score p1 + char_score p2 =? 0) eqn:E; inversion H; subst.
  - lia.
  - apply Z.eqb_neq in E. lia.
Qed.

Lemma tennis_probs_spec p1 p2 adj x y :
  tennis_scores p1 p2 = (x, y) ->
  let q1 := (share x (x + y) + adj)%Q in
  let q2 := (share y (x + y) - adj)%Q in
  tennis_probs p1 p2 adj = Some ((q1 / (q1 + q2) * 100)%Q, (q2 / (q1 + q2) * 100)%Q) /\
  (q1 + q2 == 100)%Q.
Proof.
  intros H q1 q2.
  assert (R := tennis_scores_range _ _ _ _ H).
  assert (S := share_sum x y ltac:(lia)).
  assert (S' : (q1 + q2 == 100)%Q) by (unfold q1, q2; lra).
  split; [|exact S'].
  unfold tennis_probs. rewrite H.
  rewrite !py_div_nonzero by (apply inject_Z_neq0; lia).
  change (inject_Z x / inject_Z (x + y) * 100 + adj)%Q with q1.
  change (inject_Z y / inject_Z (x + y) * 100 - adj)%Q with q2.
  rewrite !py_div_nonzero by (rewrite S'; discriminate).
  reflexivity.
Qed.

(** *** Basketball *)

Lemma basketball_probs_spec h a :
  basketball_probs h a =
    Some (share (char_score h + 10) (char_score h + 10 + char_score a),
          share (char_score a) (char_score h + 10 + char_score a)).
Proof.
  assert (R1 := char_score_range h). assert (R2 := char_score_range a).
  unfold basketball_probs, basketball_scores.
  rewrite !py_div_nonzero by (apply inject_Z_neq0; lia).
  reflexivity.
Qed.

Lemma share_gt (x t n : Z) (d : positive) :
  0 < t -> n * t < x * 100 * Z.pos d -> ((n # d) < share x t)%Q.
Proof.
  intros Ht H. unfold share.
  assert (E : (inject_Z x / inject_Z t * 100 == inject_Z (x * 100) / inject_Z t)%Q).
  { rewrite inject_Z_mult. field. apply inject_Z_neq0. exact Ht. }
  rewrite E. apply Qlt_shift_div_l; [apply inject_Z_pos; exact Ht|].
  unfold Qlt, Qmult, inject_Z. simpl. lia.
Qed.

Lemma renormalized_sum (u v : Q) :
  ~ (u + v == 0)%Q -> (u / (u + v) * 100 + v / (u + v) * 100 == 100)%Q.
Proof. intro H. field. exact H. Qed.

(** ** Claims on the tennis and basketball estimators *)

(** C3.  For every pair of names and every value of the perturbation, the
    renormalized probabilities sum to exactly 100, and the returned values
    (rounded to one decimal) sum to 100 within 0.1. *)
Theorem tennis_probs_sum_100 (p1 p2 : string) (rnd : tennis_draws) :
  exists q1 q2 r,
    tennis_probs p1 p2 (td_adjustment rnd) = Some (q1, q2) /\ (q1 + q2 == 100)%Q /\
    analyze_match_tennis p1 p2 rnd = Some r /\
    tr_prob1 r = round1 q1 /\ tr_prob2 r = round1 q2 /\
    (- (1 # 10) <= tr_prob1 r + tr_prob2 r - 100 <= 1 # 10)%Q.
Proof.
  destruct (tennis_scores p1 p2) as [x y] eqn:H.
  destruct (tennis_probs_spec p1 p2 (td_adjustment rnd) x y H) as [E S].
  set (q1 := (share x (x + y) + td_adjustment rnd)%Q) in *.
  set (q2 := (share y (x + y) - td_adjustment rnd)%Q) in *.
  assert (NZ : ~ (q1 + q2 == 0)%Q) by (rewrite S; discriminate).
  assert (S2 := renormalized_sum q1 q2 NZ).
  assert (B1 := round1_err (q1 / (q1 + q2) * 100)).
  assert (B2 := round1_err (q2 / (q1 + q2) * 100)).
  do 3 eexists. split; [exact E|]. split; [exact S2|].
  split; [unfold analyze_match_tennis; rewrite E; reflexivity|].
  split; [reflexivity|]. split; [reflexivity|].
  simpl. lra.
Qed.

(** C4.  The home side's score before normalization is the raw score plus
    10; the probabilities, winner and confidence do not depend on the drawn
    spread and total; and for equal names the home probability, before and
    after rounding, is strictly greater than 50. *)
Theorem basketball_home_bonus :
  (forall h a, basketball_scores h a = (char_score h + 10, char_score a)) /\
  (forall h a s1 t1 s2 t2, exists r1 r2,
     analyze_match_basketball h a s1 t1 = Some r1 /\
     analyze_match_basketball h a s2 t2 = Some r2 /\
     br_home r1 = br_home r2 /\ br_away r1 = br_away r2 /\
     br_predicted_winner r1 = br_predicted_winner r2 /\
     br_confidence r1 = br_confidence r2) /\
  (forall n s t, exists hp ap r,
     basketball_probs n n = Some (hp, ap) /\ (50 < hp)%Q /\
     analyze_match_basketball n n s t = Some r /\ (50 < br_home r)%Q).
Proof.
  split; [reflexivity|]. split.
  - intros h a s1 t1 s2 t2.
    unfold analyze_match_basketball. rewrite basketball_probs_spec.
    do 2 eexists. split; [reflexivity|]. split; [reflexivity|].
    repeat split.
  - intros n s t.
    assert (R := char_score_range n).
    assert (G := share_gt (char_score n + 10) (char_score n + 10 + char_score n) 1001 20
                   ltac:(lia) ltac:(lia)).
    set (hp := share (char_score n + 10) (char_score n + 10 + char_score n)) in *.
    assert (B := round1_err hp).
    exists hp, (share (char_score n) (char_score n + 10 + char_score n)).
    eexists. split; [apply basketball_probs_spec|].
    split; [lra|].
    split; [unfold analyze_match_basketball; rewrite basketball_probs_spec; reflexivity|].
    cbn [br_home]. fold hp. lra.
Qed.

(** C9.  An empty name scores 0; the both-zero substitution (football,
    tennis) and the home bonus (basketball) keep every denominator non-zero,
    so each estimator returns a result for every pair of strings, empty ones
    included, and every value of the random draws. *)
Theorem estimators_never_raise :
  char_score "" = 0 /\
  football_scores "" "" = (50, 50) /\ tennis_scores "" "" = (50, 50) /\
  basketball_scores "" "" = (10, 0) /\
  (forall h a e, exists r, analyze_match_football h a e = Some r) /\
  (forall p1 p2 rnd, exists r, analyze_match_tennis p1 p2 rnd = Some r) /\
  (forall h a s t, exists r, analyze_match_basketball h a s t = Some r).
Proof.
  do 4 (split; [reflexivity|]). split; [|split].
  - intros h a e. destruct (football_scores h a) as [x y] eqn:H.
    destruct (analyze_match_football_spec h a e x y H) as [odds E].
    eexists. exact E.
  - intros p1 p2 rnd.
    destruct (tennis_scores p1 p2) as [x y] eqn:H.
    destruct (tennis_probs_spec p1 p2 (td_adjustment rnd) x y H) as [E _].
    unfold analyze_match_tennis. rewrite E. eexists. reflexivity.
  - intros h a s t. unfold analyze_match_basketball. rewrite basketball_probs_spec.
    eexists. reflexivity.
Qed.

(** ** Claims on the API adapters *)

Lemma format_records_length {A B : Type} (f : A -> option B) xs :
  (List.length (format_records f xs) <= List.length xs)%nat.
Proof.
  induction xs as [|x xs IH]; simpl; [lia|].
  destruct (f x); simpl; lia.
Qed.

Lemma format_records_app {A B : Type} (f : A -> option B) l1 l2 :
  format_records f (l1 ++ l2)%list = (format_records f l1 ++ format_records f l2)%list.
Proof.
  induction l1 as [|x l1 IH]; simpl; [reflexivity|].
  destruct (f x); rewrite IH; reflexivity.
Qed.

Lemma format_records_skip {A B : Type} (f : A -> option B) l1 x l2 :
  f x = None -> format_records f (l1 ++ x :: l2)%list = (format_records f l1 ++ format_records f l2)%list.
Proof.
  intro H. rewrite format_records_app. simpl. rewrite H. reflexivity.
Qed.

Lemma firstn_length_le_bound {A : Type} n (l : list A) :
  (List.length (firstn n l) <= n)%nat.
Proof. rewrite length_firstn. lia. Qed.

Lemma map_fixtures_with_raise fromiso l1 x l2 :
  map_fixture_with fromiso x = None ->
  map_fixtures_with fromiso (l1 ++ x :: l2)%list = None.
Proof.
  intro H. induction l1 as [|y l1 IH]; simpl.
  - rewrite H. reflexivity.
  - rewrite IH. destruct (map_fixture_with fromiso y); reflexivity.
Qed.

Lemma map_fixtures_repeat n :
  map_fixtures (repeat sample_fixture n) =
    Some (repeat {| fm_home := JStr "Inter"; fm_away := JStr "Milan";
                    fm_league := "🇮🇹 Serie A"; fm_time := "18:45" |} n).
Proof.
  induction n as [|n IH]; [reflexivity|].
  change (repeat sample_fixture (S n)) with (sample_fixture :: repeat sample_fixture n).
  unfold map_fixtures in *. cbn [map_fixtures_with]. rewrite IH. vm_compute. reflexivity.
Qed.

(** C5 (amended).  On the API path the tennis matches are cut to 10, the
    tennis rankings to 20 and the basketball games to 15; the football
    fixtures are filtered by supported league but not cut, so any number of
    supported fixtures comes back whole. *)
Theorem api_lists_bounded :
  (forall api_data, (List.length (_format_api_matches api_data) <= 10)%nat) /\
  (forall api_data tour, (List.length (snd (_format_api_rankings api_data tour)) <= 20)%nat) /\
  (forall api_data, (List.length (_format_api_games api_data) <= 15)%nat) /\
  (forall n, List.length (get_todays_matches_football "key" (Some (repeat sample_fixture (S n)))) = S n).
Proof.
  split; [|split; [|split]].
  - intro d. unfold _format_api_matches.
    eapply Nat.le_trans; [apply format_records_length | apply firstn_length_le_bound].
  - intros d tour. unfold _format_api_rankings. cbn [snd].
    eapply Nat.le_trans; [apply format_records_length | apply firstn_length_le_bound].
  - intro d. unfold _format_api_games.
    eapply Nat.le_trans; [apply format_records_length | apply firstn_length_le_bound].
  - intro n. unfold get_todays_matches_football, get_todays_matches_football_with.
    change (String.eqb "key" "") with false.
    change (map_fixtures_with fromisoformat_hhmm) with map_fixtures.
    change (repeat sample_fixture (S n)) with (sample_fixture :: repeat sample_fixture n).
    cbv beta iota.
    change (sample_fixture :: repeat sample_fixture n) with (repeat sample_fixture (S n)).
    rewrite map_fixtures_repeat. simpl. f_equal. apply repeat_length.
Qed.

(** C5 (counterexample).  With an API key, 21 supported fixtures give a
    list of 21 football matches: no cap of at most 20 is applied. *)
Lemma football_api_list_uncapped :
  List.length (get_todays_matches_football "key" (Some (repeat sample_fixture 21))) = 21%nat.
Proof. vm_compute. reflexivity. Qed.

Lemma format_window_skip {A B : Type} (f : A -> option B) n l1 x l2 :
  f x = None -> (List.length (l1 ++ x :: l2)%list <= n)%nat ->
  format_records f (firstn n (l1 ++ x :: l2)%list) =
    (format_records f (firstn n l1) ++ format_records f (firstn n l2))%list.
Proof.
  intros H L. rewrite length_app in L. simpl in L.
  rewrite !firstn_all2 by (rewrite ?length_app; simpl; lia).
  apply format_records_skip. exact H.
Qed.

(** C6 (amended).  For the tennis matches, the tennis rankings and the
    basketball games, a record whose mapping raises is skipped and the
    other records of the (truncated) batch are still mapped and returned.
    For the football fixtures the whole loop sits in one [try]: a record
    that raises discards the batch and the simulated list is returned; this
    holds whatever strings [datetime.fromisoformat] accepts ([fromiso]). *)
Theorem api_records_skipped :
  (forall l1 x l2, format_tennis_match x = None -> (List.length (l1 ++ x :: l2)%list <= 10)%nat ->
     _format_api_matches (l1 ++ x :: l2)%list = (_format_api_matches l1 ++ _format_api_matches l2)%list) /\
  (forall l1 x l2 tour, format_tennis_ranking x = None -> (List.length (l1 ++ x :: l2)%list <= 20)%nat ->
     snd (_format_api_rankings (l1 ++ x :: l2)%list tour) =
       (snd (_format_api_rankings l1 tour) ++ snd (_format_api_rankings l2 tour))%list) /\
  (forall l1 x l2, format_basketball_game x = None -> (List.length (l1 ++ x :: l2)%list <= 15)%nat ->
     _format_api_games (l1 ++ x :: l2)%list = (_format_api_games l1 ++ _format_api_games l2)%list) /\
  (forall fromiso key l1 x l2, key <> "" -> map_fixture_with fromiso x = None ->
     get_todays_matches_football_with fromiso key (Some (l1 ++ x :: l2)%list) =
       simulated_football_matches).
Proof.
  split; [|split; [|split]].
  - intros. apply format_window_skip; assumption.
  - intros. apply format_window_skip; assumption.
  - intros. apply format_window_skip; assumption.
  - intros fromiso key l1 x l2 K H. unfold get_todays_matches_football_with.
    destruct (String.eqb key "") eqn:E; [apply String.eqb_eq in E; contradiction|].
    destruct (l1 ++ x :: l2)%list as [|y ys] eqn:L; [destruct l1; discriminate|].
    rewrite <- L, (map_fixtures_with_raise fromiso l1 x l2 H). reflexivity.
Qed.

(** C6 (counterexample).  A well-formed fixture followed by one without a
    date: the first maps, the second raises, and the caller receives the
    simulated list instead of the first fixture. *)
Lemma football_bad_fixture_discards_batch :
  map_fixture sample_fixture <> None /\ map_fixture fixture_without_date = None /\
  get_todays_matches_football "key" (Some [sample_fixture; fixture_without_date]) =
    simulated_football_matches.
Proof.
  split; [vm_compute; discriminate|]. split; vm_compute; reflexivity.
Qed.

(** The [fromisoformat] of CPython 3.7-3.10 on the API's shape, on a date
    alone (midnight), on an impossible date and time, and on a ["Z"] suffix
    (accepted only from 3.11, hence the [.replace('Z', '+00:00')]). *)
Lemma fromisoformat_hhmm_samples :
  fromisoformat_hhmm "2024-05-01T18:45:00+00:00" = Some "18:45" /\
  fromisoformat_hhmm "2024-05-01" = Some "00:00" /\
  fromisoformat_hhmm "2024-02-30T25:99" = None /\
  fromisoformat_hhmm "2024-05-01T18:45Z" = None.
Proof. vm_compute. repeat split. Qed.

(** ** Claims on the persistence gateway *)

Section ListFacts.
Context {A : Type} (p : A -> bool).

Lemma find_map_preserving (f : A -> A) (l : list A) :
  (forall r, p (f r) = p r) -> find p (map f l) = option_map f (find p l).
Proof.
  intro Hf. induction l as [|r l IH]; simpl; [reflexivity|].
  rewrite Hf. destruct (p r); [reflexivity | exact IH].
Qed.

Lemma filter_map_preserving (f : A -> A) (l : list A) :
  (forall r, p (f r) = p r) -> List.length (filter p (map f l)) = List.length (filter p l).
Proof.
  intro Hf. induction l as [|r l IH]; simpl; [reflexivity|].
  rewrite Hf. destruct (p r); simpl; rewrite IH; reflexivity.
Qed.

Lemma find_none_filter (l : list A) : find p l = None -> filter p l = [].
Proof.
  induction l as [|r l IH]; simpl; [reflexivity|].
  destruct (p r); [discriminate | exact IH].
Qed.

Lemma find_some_filter (l : list A) x : find p l = Some x -> List.length (filter p l) <> 0%nat.
Proof.
  induction l as [|r l IH]; simpl; [discriminate|].
  destruct (p r); [simpl; discriminate | exact IH].
Qed.

Lemma find_app_last (l : list A) x :
  find p l = None -> p x = true -> find p (l ++ [x])%list = Some x.
Proof.
  intros H Hx. induction l as [|r l IH]; simpl in *.
  - rewrite Hx. reflexivity.
  - destruct (p r); [discriminate | exact (IH H)].
Qed.
End ListFacts.

Lemma touch_user_tid now un fn ln u : u_telegram_id (touch_user now un fn ln u) = u_telegram_id u.
Proof. reflexivity. Qed.

Lemma touch_user_id now un fn ln u : u_id (touch_user now un fn ln u) = u_id u.
Proof. reflexivity. Qed.

(** The update branch rewrites rows in place and keeps their platform id. *)
Lemma touch_rows_tid tid now un fn ln (id : Z) (r : user_row) :
  (u_telegram_id (if u_id r =? id then touch_user now un fn ln r else r) =? tid) =
  (u_telegram_id r =? tid).
Proof. destruct (u_id r =? id); reflexivity. Qed.

Lemma count_tid_app tid us u :
  count_tid tid (us ++ [u])%list =
    (count_tid tid us + if Z.eqb (u_telegram_id u) tid then 1 else 0)%nat.
Proof.
  unfold count_tid. rewrite filter_app, length_app. simpl.
  destruct (u_telegram_id u =? tid); reflexivity.
Qed.

(** C7 (amended).  Two successive calls with the same platform id return
    rows with the same primary key and leave exactly one row for the id when
    there was none (and the same rows otherwise): no duplicate is inserted.
    An absent id gets a new row stamped with the current time; for a present
    id [last_seen] is set to the current time and each name field is
    overwritten only when a truthy value is passed, otherwise kept. *)
Theorem get_or_create_user_twice (st : db) (now1 now2 tid : Z)
    (un1 fn1 ln1 un2 fn2 ln2 : option string) :
  let '(u1, st1) := get_or_create_user st now1 tid un1 fn1 ln1 in
  let '(u2, st2) := get_or_create_user st1 now2 tid un2 fn2 ln2 in
  u_id u1 = u_id u2 /\ u_telegram_id u2 = tid /\ u_last_seen u2 = now2 /\
  List.length (users st2) = List.length (users st1) /\
  count_tid tid (users st2) = count_tid tid (users st1) /\
  count_tid tid (users st1) =
    (if Nat.eqb (count_tid tid (users st)) 0 then 1%nat else count_tid tid (users st)) /\
  match find (fun u => u_telegram_id u =? tid) (users st) with
  | None =>
      users st1 = (users st ++ [u1])%list /\ u_id u1 = next_user_id st /\
      u_telegram_id u1 = tid /\ u_created_at u1 = now1 /\ u_last_seen u1 = now1 /\
      u_username u1 = un1 /\ u_first_name u1 = fn1 /\ u_last_name u1 = ln1
  | Some old =>
      u_id u1 = u_id old /\ u_created_at u1 = u_created_at old /\ u_last_seen u1 = now1 /\
      u_username u1 = py_or un1 (u_username old) /\
      u_first_name u1 = py_or fn1 (u_first_name old) /\
      u_last_name u1 = py_or ln1 (u_last_name old) /\
      List.length (users st1) = List.length (users st)
  end.
Proof.
  unfold get_or_create_user.
  destruct (find (fun u => u_telegram_id u =? tid) (users st)) as [old|] eqn:F.
  - cbn [users set_users].
    rewrite (find_map_preserving _ _ _ (touch_rows_tid tid now1 un1 fn1 ln1 (u_id old))), F.
    cbn [option_map]. rewrite Z.eqb_refl.
    assert (Tid : u_telegram_id old = tid).
    { apply find_some in F. destruct F as [_ E]. apply Z.eqb_eq. exact E. }
    assert (C := find_some_filter _ _ _ F).
    unfold count_tid.
    unfold set_users; cbn [users next_user_id]. rewrite !touch_user_id, !length_map.
    rewrite (filter_map_preserving _ _ _ (touch_rows_tid tid now2 un2 fn2 ln2 (u_id old))).
    rewrite (filter_map_preserving _ _ _ (touch_rows_tid tid now1 un1 fn1 ln1 (u_id old))).
    destruct (Nat.eqb_spec (List.length (filter (fun u => u_telegram_id u =? tid) (users st))) 0);
      [contradiction|].
    cbn. repeat split; assumption.
  - cbn [users set_users next_user_id].
    set (nu := {| u_id := next_user_id st; u_telegram_id := tid; u_username := un1;
                  u_first_name := fn1; u_last_name := ln1;
                  u_created_at := now1; u_last_seen := now1 |}).
    rewrite (find_app_last _ _ nu F) by (apply Z.eqb_refl).
    unfold set_users; cbn [users next_user_id option_map].
    unfold count_tid.
    rewrite length_map.
    rewrite (filter_map_preserving _ _ _ (touch_rows_tid tid now2 un2 fn2 ln2 (u_id nu))).
    fold (count_tid tid (users st ++ [nu])%list). rewrite count_tid_app.
    unfold count_tid. rewrite (find_none_filter _ _ F). cbn.
    rewrite Z.eqb_refl. repeat split; reflexivity.
Qed.

(** C7 (counterexample).  For the stored user 42 named "bob", a call
    passing no username (as [get_user_stats] and [save_prediction] do)
    keeps "bob": the profile field is not updated to the value passed. *)
Lemma username_kept_when_not_given :
  let '(u, _) := get_or_create_user sample_db 100 42 None None None in
  u_username u = Some "bob" /\ u_username u <> None /\ u_last_seen u = 100.
Proof. vm_compute. split; [reflexivity|]. split; [discriminate | reflexivity]. Qed.

Lemma insert_desc_perm p l : Permutation (insert_desc p l) (p :: l).
Proof.
  induction l as [|q rest IH]; simpl; [reflexivity|].
  destruct (p_created_at q <? p_created_at p); [reflexivity|].
  transitivity (q :: p :: rest); [constructor; exact IH | apply perm_swap].
Qed.

Lemma order_by_created_desc_perm l : Permutation (order_by_created_desc l) l.
Proof.
  induction l as [|p rest IH]; simpl; [reflexivity|].
  rewrite insert_desc_perm. constructor. exact IH.
Qed.

Lemma insert_desc_hdrel q p l :
  HdRel newer_or_same q l -> newer_or_same q p -> HdRel newer_or_same q (insert_desc p l).
Proof.
  intros H Hqp. destruct l as [|r rest]; simpl.
  - constructor. exact Hqp.
  - destruct (p_created_at r <? p_created_at p); constructor; [exact Hqp|].
    inversion H; assumption.
Qed.

Lemma insert_desc_sorted p l :
  Sorted newer_or_same l -> Sorted newer_or_same (insert_desc p l).
Proof.
  induction l as [|q rest IH]; intro S; simpl.
  - constructor; constructor.
  - destruct (p_created_at q <? p_created_at p) eqn:E.
    + apply Z.ltb_lt in E. constructor; [exact S|]. constructor. unfold newer_or_same. lia.
    + apply Z.ltb_ge in E. inversion S; subst.
      constructor; [apply IH; assumption|].
      apply insert_desc_hdrel; [assumption|]. unfold newer_or_same. lia.
Qed.

Lemma order_by_created_desc_sorted l : Sorted newer_or_same (order_by_created_desc l).
Proof.
  induction l as [|p rest IH]; simpl; [constructor|].
  apply insert_desc_sorted. exact IH.
Qed.

Lemma get_or_create_user_table v st now tid un fn ln :
  table v (snd (get_or_create_user st now tid un fn ln)) = table v st.
Proof.
  unfold get_or_create_user.
  destruct (find _ (users st)); destruct v; reflexivity.
Qed.

(** C8 (amended).  [getStats] counts the user's rows of the variant and
    those settled as correct; the accuracy is correct/total*100 rounded to
    one decimal (0 when total is 0); the recent list is the first 5 of the
    user's rows ordered by decreasing creation time; a user with no rows
    gets total 0, correct 0, accuracy 0 and an empty recent list. *)
Theorem get_stats_spec (v : variant) (st : db) (now tid : Z) :
  let '(s, _) := get_stats v st now tid in
  let user := fst (get_or_create_user st now tid None None None) in
  let mine := filter (fun p => p_user_id p =? u_id user) (table v st) in
  let correct := filter (fun p => match p_is_correct p with Some true => true | _ => false end) mine in
  total_predictions s = Z.of_nat (List.length mine) /\
  correct_predictions s = Z.of_nat (List.length correct) /\
  (mine = [] -> total_predictions s = 0 /\ correct_predictions s = 0 /\
                (accuracy s == 0)%Q /\ recent_predictions s = []) /\
  (0 < total_predictions s ->
     accuracy s = round1 (inject_Z (correct_predictions s) / inject_Z (total_predictions s) * 100)) /\
  (total_predictions s = 0 -> (accuracy s == 0)%Q) /\
  (List.length (recent_predictions s) <= 5)%nat /\
  exists l, Permutation l mine /\ Sorted newer_or_same l /\ recent_predictions s = firstn 5 l.
Proof.
  unfold get_stats.
  destruct (get_or_create_user st now tid None None None) as [user st1] eqn:G.
  assert (T : table v st1 = table v st).
  { rewrite <- (get_or_create_user_table v st now tid None None None), G. reflexivity. }
  cbn [fst total_predictions correct_predictions accuracy recent_predictions].
  rewrite T.
  set (mine := filter (fun p => p_user_id p =? u_id user) (table v st)).
  set (correct := filter (fun p => match p_is_correct p with Some true => true | _ => false end) mine).
  split; [reflexivity|]. split; [reflexivity|].
  split.
  { intro E. subst correct. rewrite E. simpl. repeat split. }
  split.
  { intro H. destruct (0 <? Z.of_nat (List.length mine)) eqn:E; [reflexivity|].
    apply Z.ltb_ge in E. lia. }
  split.
  { intro H. rewrite H. reflexivity. }
  split.
  { apply firstn_length_le_bound. }
  exists (order_by_created_desc mine). split; [|split].
  - apply order_by_created_desc_perm.
  - apply order_by_created_desc_sorted.
  - reflexivity.
Qed.

(** C8 (counterexample).  A user with three predictions, one correct, gets
    accuracy 33.3, not 1/3 * 100. *)
Lemma stats_accuracy_rounded :
  let '(s, _) := get_stats Football stats_db 100 42 in
  total_predictions s = 3 /\ correct_predictions s = 1 /\
  ~ (accuracy s == inject_Z 1 / inject_Z 3 * 100)%Q.
Proof. vm_compute. split; [reflexivity|]. split; [reflexivity|]. discriminate. Qed.

(** ** Further properties of the estimators *)

(** *** Rounding is monotone *)

Lemma Qltb_compat a b c d : (a == c)%Q -> (b == d)%Q -> Qltb a b = Qltb c d.
Proof.
  intros E1 E2.
  destruct (Qltb a b) eqn:F1, (Qltb c d) eqn:F2; try reflexivity;
    [apply Qltb_true in F1; apply Qltb_false in F2
    | apply Qltb_false in F1; apply Qltb_true in F2]; lra.
Qed.

Lemma Qfloor_compat x y : (x == y)%Q -> Qfloor x = Qfloor y.
Proof.
  intro E. apply Z.le_antisymm; apply Qfloor_resp_le; rewrite E; apply Qle_refl.
Qed.

Lemma round_half_even_compat x y : (x == y)%Q -> round_half_even x = round_half_even y.
Proof.
  intro E. unfold round_half_even. rewrite (Qfloor_compat x y E).
  assert (F : (x - inject_Z (Qfloor y) == y - inject_Z (Qfloor y))%Q) by (rewrite E; reflexivity).
  rewrite (Qltb_compat _ _ _ _ F (Qeq_refl (1 # 2))).
  rewrite (Qltb_compat _ _ _ _ (Qeq_refl (1 # 2)) F).
  reflexivity.
Qed.

Lemma round_half_even_mono x y : (x <= y)%Q -> round_half_even x <= round_half_even y.
Proof.
  intro H. destruct (Z_le_gt_dec (round_half_even x) (round_half_even y)) as [|G]; [assumption|].
  exfalso.
  assert (Ex := round_half_even_err x). assert (Ey := round_half_even_err y).
  assert (G' : round_half_even y + 1 <= round_half_even x) by lia.
  rewrite Zle_Qle in G'. rewrite inject_Z_plus in G'. change (inject_Z 1) with 1%Q in G'.
  assert (Eq : (x == y)%Q) by (apply Qle_antisym; [exact H | lra]).
  rewrite (round_half_even_compat x y Eq) in G. lia.
Qed.

Lemma round1_compat x y : (x == y)%Q -> round1 x = round1 y.
Proof.
  intro E. unfold round1. rewrite (round_half_even_compat (x * 10) (y * 10)); [reflexivity|].
  rewrite E. reflexivity.
Qed.

Lemma round1_mono x y : (x <= y)%Q -> (round1 x <= round1 y)%Q.
Proof.
  intro H. unfold round1, Qle. simpl.
  assert (M := round_half_even_mono (x * 10) (y * 10)
                 (Qmult_le_compat_r x y 10 H ltac:(discriminate))).
  lia.
Qed.

Lemma round2_mono x y : (x <= y)%Q -> (round2 x <= round2 y)%Q.
Proof.
  intro H. unfold round2, Qle. simpl.
  assert (M := round_half_even_mono (x * 100) (y * 100)
                 (Qmult_le_compat_r x y 100 H ltac:(discriminate))).
  lia.
Qed.

(** A rounded value stays on the same side of a bound that is already on
    the grid. *)
Lemma round1_ge (m x : Q) : (round1 m == m)%Q -> (m <= x)%Q -> (m <= round1 x)%Q.
Proof. intros R H. rewrite <- R at 1. apply round1_mono. exact H. Qed.

Lemma round1_le (m x : Q) : (round1 m == m)%Q -> (x <= m)%Q -> (round1 x <= m)%Q.
Proof. intros R H. rewrite <- R. apply round1_mono. exact H. Qed.

Lemma py_max2_cases a b :
  (py_max2 a b = a /\ (b <= a)%Q) \/ (py_max2 a b = b /\ (a < b)%Q).
Proof. unfold py_max2. qltb_cases; [right | left]; split; auto. Qed.

(** *** Football: goals and odds *)

Lemma football_odds_range hp ap :
  (hp + ap == 100)%Q ->
  let hp' := (hp - 20 / 3)%Q in
  let ap' := (ap - 20 / 3)%Q in
  let l := football_label hp' 20 ap' in
  let s := if String.eqb l "1" then hp' else if String.eqb l "X" then 20%Q else ap' in
  (0 <= hp)%Q -> (0 <= ap)%Q -> (130 # 3 <= s <= 280 # 3)%Q.
Proof.
  intros S hp' ap' l s H1 H2.
  assert (T : (20 / 3 == 20 # 3)%Q) by reflexivity.
  unfold s, l, hp', ap', football_label in *.
  qltb_cases; cbn -[Qminus Qdiv]; rewrite T in *; lra.
Qed.

Lemma odds_window (s : Q) :
  (130 # 3 <= s <= 280 # 3)%Q -> (107 # 100 <= 1 / (s / 100) <= 231 # 100)%Q.
Proof.
  intro H. assert (P : (0 < s)%Q) by lra.
  assert (E : (1 / (s / 100) == 100 / s)%Q) by (field; intro Z0; rewrite Z0 in P; discriminate).
  rewrite E. split.
  - apply Qle_shift_div_l; [exact P|]. lra.
  - apply Qle_shift_div_r; [exact P|]. lra.
Qed.

(** X1.  For every pair of names, the predicted goals lie in 0..3 for the
    home side and 0..2 for the away side, the selection is the predicted
    label, and the odds [round(1 / (p / 100), 2)] of the selected
    probability lie between 1.07 and 2.31. *)
Theorem football_goals_and_odds (h a : string) (e : Q) :
  exists r, analyze_match_football h a e = Some r /\
    0 <= fr_goals_home r <= 3 /\ 0 <= fr_goals_away r <= 2 /\
    fr_selection r = fr_prediction r /\
    (107 # 100 <= fr_odds r <= 231 # 100)%Q.
Proof.
  destruct (football_scores h a) as [x y] eqn:H.
  assert (R := football_scores_range _ _ _ _ H).
  assert (S := share_sum x y ltac:(lia)).
  assert (N1 := share_nonneg x (x + y) ltac:(lia) ltac:(lia)).
  assert (N2 := share_nonneg y (x + y) ltac:(lia) ltac:(lia)).
  assert (W := football_odds_range _ _ S N1 N2). cbv zeta in W.
  set (l := football_label (share x (x + y) - 20 / 3) 20 (share y (x + y) - 20 / 3)) in *.
  set (s := if String.eqb l "1" then (share x (x + y) - 20 / 3)%Q
            else if String.eqb l "X" then 20%Q else (share y (x + y) - 20 / 3)%Q) in *.
  assert (NZ : ~ (s / 100 == 0)%Q).
  { intro Z0. assert (M : (s == s / 100 * 100)%Q) by field. rewrite Z0 in M. lra. }
  assert (O := odds_window s W).
  unfold analyze_match_football. rewrite H, (football_probs_spec _ _ _ _ H).
  cbv zeta. fold l. fold s. rewrite (py_div_nonzero _ _ NZ).
  eexists. split; [reflexivity|]. cbn [fr_goals_home fr_goals_away fr_selection fr_prediction fr_odds].
  assert (X : 0 <= x <= 99) by lia. assert (Y : 0 <= y <= 99) by lia.
  rewrite !Zle_Qle in X, Y. destruct X as [X1 X2], Y as [Y1 Y2].
  assert (G1 := round_half_even_mono (inject_Z x / 100 * 3) 3 ltac:(
    setoid_replace (inject_Z x / 100 * 3)%Q with (inject_Z x * (3 # 100))%Q by field;
    change (inject_Z 99) with 99%Q in X2; lra)).
  assert (G2 := round_half_even_mono (inject_Z y / 100 * 2) 2 ltac:(
    setoid_replace (inject_Z y / 100 * 2)%Q with (inject_Z y * (2 # 100))%Q by field;
    change (inject_Z 99) with 99%Q in Y2; lra)).
  change (round_half_even 3) with 3 in G1. change (round_half_even 2) with 2 in G2.
  split; [lia|]. split; [lia|]. split; [reflexivity|].
  destruct O as [O1 O2]. split.
  - apply (Qle_trans _ (round2 (107 # 100))); [apply Qle_refl | apply round2_mono; exact O1].
  - apply (Qle_trans _ (round2 (231 # 100))); [apply round2_mono; exact O2 | apply Qle_refl].
Qed.

(** *** Tennis: range of the probabilities and the predicted side *)

(** X2.  When the perturbation drawn by [random.uniform(-5, 5)] lies in
    [-5, 5], each returned probability lies in [-5, 105]; a player whose
    name scores 0 against a name with a non-zero score gets the rounded
    perturbation itself as probability, so a negative one when the
    perturbation is below -0.05. *)
Theorem tennis_probability_range (p1 p2 : string) (rnd : tennis_draws)
    (Hadj : (-5 <= td_adjustment rnd <= 5)%Q) :
  exists r, analyze_match_tennis p1 p2 rnd = Some r /\
    (-5 <= tr_prob1 r <= 105)%Q /\ (-5 <= tr_prob2 r <= 105)%Q /\
    (char_score p1 = 0 -> char_score p2 <> 0 -> tr_prob1 r = round1 (td_adjustment rnd)).
Proof.
  destruct (tennis_scores p1 p2) as [x y] eqn:H.
  assert (R := tennis_scores_range _ _ _ _ H).
  destruct (tennis_probs_spec p1 p2 (td_adjustment rnd) x y H) as [E S].
  unfold analyze_match_tennis. rewrite E. cbv zeta.
  set (adj := td_adjustment rnd) in *.
  set (q1 := (share x (x + y) + adj)%Q) in *.
  set (q2 := (share y (x + y) - adj)%Q) in *.
  assert (N1 := share_nonneg x (x + y) ltac:(lia) ltac:(lia)).
  assert (N2 := share_nonneg y (x + y) ltac:(lia) ltac:(lia)).
  assert (SS := share_sum x y ltac:(lia)).
  assert (Q1 : (q1 / (q1 + q2) * 100 == q1)%Q) by (rewrite S; field).
  assert (Q2 : (q2 / (q1 + q2) * 100 == q2)%Q) by (rewrite S; field).
  eexists. split; [reflexivity|]. cbn [tr_prob1 tr_prob2].
  rewrite (round1_compat _ _ Q1), (round1_compat _ _ Q2).
  assert (Rm : (round1 (-5) == -5)%Q) by reflexivity.
  assert (Rp : (round1 105 == 105)%Q) by reflexivity.
  split; [split; [apply round1_ge | apply round1_le]; unfold q1, q2 in *; try assumption; lra|].
  split; [split; [apply round1_ge | apply round1_le]; unfold q1, q2 in *; try assumption; lra|].
  intros Z1 Z2. apply round1_compat.
  unfold tennis_scores in H. rewrite Z1 in H.
  destruct (0 + char_score p2 =? 0) eqn:C; [apply Z.eqb_eq in C; lia|].
  inversion H; subst x y. unfold q1, share.
  change (inject_Z 0) with 0%Q. field. apply inject_Z_neq0. lia.
Qed.

(** X3.  The predicted winner and the predicted set score name the same
    side: player1 with "2-0" or "2-1", whose rounded probability is then
    at least the other one, or player2 with "0-2" or "1-2" (ties of the
    unrounded probabilities go to player2).  The confidence is the
    rounded probability of that side and is at least 50. *)
Theorem tennis_winner_consistent (p1 p2 : string) (rnd : tennis_draws) :
  exists r, analyze_match_tennis p1 p2 rnd = Some r /\
    (50 <= tr_confidence r)%Q /\
    ((tr_predicted_winner r = p1 /\ In (tr_predicted_score r) ["2-0"; "2-1"] /\
      (tr_prob2 r <= tr_prob1 r)%Q /\ tr_confidence r = tr_prob1 r) \/
     (tr_predicted_winner r = p2 /\ In (tr_predicted_score r) ["0-2"; "1-2"] /\
      (tr_prob1 r <= tr_prob2 r)%Q /\ tr_confidence r = tr_prob2 r)).
Proof.
  destruct (tennis_scores p1 p2) as [x y] eqn:H.
  destruct (tennis_probs_spec p1 p2 (td_adjustment rnd) x y H) as [E S].
  set (q1 := (share x (x + y) + td_adjustment rnd)%Q) in *.
  set (q2 := (share y (x + y) - td_adjustment rnd)%Q) in *.
  assert (NZ : ~ (q1 + q2 == 0)%Q) by (rewrite S; discriminate).
  assert (S2 := renormalized_sum q1 q2 NZ).
  set (u := (q1 / (q1 + q2) * 100)%Q) in *.
  set (v := (q2 / (q1 + q2) * 100)%Q) in *.
  assert (R50 : (round1 50 == 50)%Q) by reflexivity.
  unfold analyze_match_tennis. rewrite E. cbv zeta.
  eexists. split; [reflexivity|].
  cbn [tr_confidence tr_predicted_winner tr_predicted_score tr_prob1 tr_prob2].
  unfold py_max2.
  qltb_cases;
    first
    [ lra
    | split; [apply round1_ge; [exact R50 | lra]|];
      first
      [ left; split; [reflexivity|];
        split; [destruct (td_sets_second rnd); simpl; auto|];
        split; [apply round1_mono; lra | first [reflexivity | apply round1_compat; lra]]
      | right; split; [reflexivity|];
        split; [destruct (td_sets_second rnd); simpl; auto|];
        split; [apply round1_mono; lra | first [reflexivity | apply round1_compat; lra]] ] ].
Qed.

(** *** Basketball: the returned values and the spread sign *)

(** X4.  The rounded probabilities sum to 100 within 0.1; the confidence
    is the rounded probability of the predicted side and is at least 50.
    For two different names the spread reads "-" exactly when the home
    team is predicted; for two equal names the home team is predicted (its
    probability is above 50) but the spread reads "+". *)
Theorem basketball_result_consistent (h a : string) (spread total : Z) :
  exists r, analyze_match_basketball h a spread total = Some r /\
    (- (1 # 10) <= br_home r + br_away r - 100 <= 1 # 10)%Q /\
    (50 <= br_confidence r)%Q /\
    ((br_predicted_winner r = h /\ (br_away r <= br_home r)%Q /\ br_confidence r = br_home r) \/
     (br_predicted_winner r = a /\ (br_home r <= br_away r)%Q /\ br_confidence r = br_away r)) /\
    (h <> a -> (fst (br_spread r) = "-" <-> br_predicted_winner r = h)) /\
    (h = a -> fst (br_spread r) = "+" /\ (50 < br_home r)%Q) /\
    snd (br_spread r) = spread.
Proof.
  assert (R1 := char_score_range h). assert (R2 := char_score_range a).
  set (x := char_score h + 10). set (y := char_score a).
  assert (S := share_sum x y ltac:(lia)).
  assert (G := share_gt x (x + y) 1001 20 ltac:(lia)).
  unfold analyze_match_basketball. rewrite basketball_probs_spec. fold x y. cbv zeta.
  set (u := share x (x + y)) in *. set (v := share y (x + y)) in *.
  assert (B1 := round1_err u). assert (B2 := round1_err v).
  assert (R50 : (round1 50 == 50)%Q) by reflexivity.
  eexists. split; [reflexivity|].
  cbn [br_home br_away br_confidence br_predicted_winner br_spread fst snd].
  split; [lra|].
  assert (Gh : a = h -> (1001 # 20 < u)%Q) by (intro D; apply G; unfold x, y; subst a; lia).
  unfold py_max2.
  destruct (Qltb v u) eqn:W; [apply Qltb_true in W | apply Qltb_false in W].
  - assert (W' : Qltb u v = false) by (apply Qltb_false; lra). rewrite W'.
    split; [apply round1_ge; [exact R50 | lra]|].
    split; [left; split; [reflexivity|]; split; [apply round1_mono; lra | reflexivity]|].
    split.
    + intro D. destruct (String.eqb_spec h a) as [|_]; [contradiction|].
      split; intros; reflexivity.
    + split; [|reflexivity].
      intro D. subst a. rewrite String.eqb_refl. split; [reflexivity|].
      assert (U := Gh eq_refl). lra.
  - split.
    { destruct (Qltb u v) eqn:W2; [apply Qltb_true in W2 | apply Qltb_false in W2];
        (apply round1_ge; [exact R50 | lra]). }
    split.
    { right. split; [reflexivity|]. split; [apply round1_mono; lra|].
      destruct (Qltb u v) eqn:W2; [reflexivity | apply Qltb_false in W2; apply round1_compat; lra]. }
    split.
    + intro D. rewrite String.eqb_refl. split; [intro F; discriminate F | intro F; congruence].
    + split; [|reflexivity].
      intro D. exfalso. assert (U := Gh (eq_sym D)). lra.
Qed.

Lemma tennis_probability_range_witness :
  exists r, analyze_match_tennis "" "a"
      {| td_adjustment := -5; td_sets_second := false; td_surface := 0;
         td_specialist_second := false; td_aces_second := false;
         td_bp_won := 3; td_bp_total := 10; td_first_serve := 60 |} = Some r /\
    (-5 <= tr_prob1 r <= 105)%Q /\ (-5 <= tr_prob2 r <= 105)%Q /\
    (char_score "" = 0 -> char_score "a" <> 0 -> tr_prob1 r = round1 (-5)).
Proof.
  apply tennis_probability_range. cbn [td_adjustment]. split; vm_compute; discriminate.
Defined.

(** ** Further properties of the API client and the managers *)

(** X5.  [_make_request] gives no data ([None] in Python) when the request
    fails or when the body carries a truthy "errors" value, even if it also
    carries a "response"; an "errors" value of [[]] or [{}] (the API's empty
    shapes) lets the response through, and a body without "response" gives
    [[]]; a body that is not an object makes the call raise, since only
    [RequestException] is caught. *)
Theorem make_request_outcomes :
  _make_request RequestFailed = Some None /\
  (forall kvs e, obj_lookup kvs "errors" = Some e -> truthy e = true ->
     _make_request (Body (JObj kvs)) = Some None) /\
  (forall r, _make_request (Body (JObj [("errors", JList []); ("response", r)])) = Some (Some r)) /\
  (forall r, _make_request (Body (JObj [("errors", JObj []); ("response", r)])) = Some (Some r)) /\
  (forall kvs, obj_lookup kvs "errors" = None -> obj_lookup kvs "response" = None ->
     _make_request (Body (JObj kvs)) = Some (Some (JList []))) /\
  (forall d, (forall kvs, d <> JObj kvs) -> _make_request (Body d) = None).
Proof.
  split; [reflexivity|]. split.
  { intros kvs e E T. simpl. rewrite E, T. reflexivity. }
  split; [reflexivity|]. split; [reflexivity|]. split.
  { intros kvs E R. simpl. rewrite E, R. reflexivity. }
  intros d N. destruct d; try reflexivity. exfalso. exact (N kvs eq_refl).
Qed.

Lemma format_records_all_none {A B : Type} (f : A -> option B) xs :
  (forall x, In x xs -> f x = None) -> format_records f xs = [].
Proof.
  induction xs as [|x rest IH]; intro H; [reflexivity|].
  simpl. rewrite (H x (or_introl eq_refl)). apply IH. intros y Hy. apply H. right. exact Hy.
Qed.

Lemma format_tennis_match_str s : format_tennis_match (JStr s) = None.
Proof. reflexivity. Qed.

Lemma format_basketball_game_str s : format_basketball_game (JStr s) = None.
Proof. reflexivity. Qed.

Lemma char_strs_skipped {B : Type} (f : json -> option B) (cs : list ascii) :
  (forall s, f (JStr s) = None) -> format_records f (map char_str cs) = [].
Proof.
  intro H. apply format_records_all_none. intros x Hx.
  apply in_map_iff in Hx. destruct Hx as [c [<- _]]. apply H.
Qed.

(** X6.  Tennis and basketball [get_todays_matches]: without a key, after a
    failed request or an API error, and for an empty list the simulated
    list is returned; a non-empty list whose first 10 (tennis) or 15
    (basketball) records are all malformed gives an empty list, with no
    fallback to the simulation; a string "response" also gives an empty
    list (its characters are skipped); a non-empty object "response" makes
    the call raise (a dict cannot be sliced). *)
Theorem todays_matches_tennis_basketball :
  (forall resp sim sim', get_todays_matches_tennis "" resp sim = Some sim /\
                         get_todays_matches_basketball "" resp sim' = Some sim') /\
  (forall key sim sim', key <> "" ->
     get_todays_matches_tennis key RequestFailed sim = Some sim /\
     get_todays_matches_basketball key RequestFailed sim' = Some sim') /\
  (forall key kvs e sim sim', key <> "" -> obj_lookup kvs "errors" = Some e -> truthy e = true ->
     get_todays_matches_tennis key (Body (JObj kvs)) sim = Some sim /\
     get_todays_matches_basketball key (Body (JObj kvs)) sim' = Some sim') /\
  (forall key sim sim', key <> "" ->
     get_todays_matches_tennis key (Body (JObj [("response", JList [])])) sim = Some sim /\
     get_todays_matches_basketball key (Body (JObj [("response", JList [])])) sim' = Some sim') /\
  (forall key l sim, key <> "" -> l <> [] ->
     (forall x, In x (firstn 10 l) -> format_tennis_match x = None) ->
     get_todays_matches_tennis key (Body (JObj [("response", JList l)])) sim = Some []) /\
  (forall key l sim, key <> "" -> l <> [] ->
     (forall x, In x (firstn 15 l) -> format_basketball_game x = None) ->
     get_todays_matches_basketball key (Body (JObj [("response", JList l)])) sim = Some []) /\
  (forall key s sim, key <> "" ->
     get_todays_matches_tennis key (Body (JObj [("response", JStr s)])) sim = Some [] \/
       (s = "" /\ get_todays_matches_tennis key (Body (JObj [("response", JStr s)])) sim = Some sim)) /\
  (forall key s sim, key <> "" ->
     get_todays_matches_basketball key (Body (JObj [("response", JStr s)])) sim = Some [] \/
       (s = "" /\ get_todays_matches_basketball key (Body (JObj [("response", JStr s)])) sim = Some sim)) /\
  (forall key kvs sim sim', key <> "" -> kvs <> [] ->
     get_todays_matches_tennis key (Body (JObj [("response", JObj kvs)])) sim = None /\
     get_todays_matches_basketball key (Body (JObj [("response", JObj kvs)])) sim' = None).
Proof.
  assert (K : forall key, key <> "" -> negb (String.eqb key "") = true).
  { intros key N. destruct (String.eqb_spec key ""); [contradiction | reflexivity]. }
  split; [intros; split; reflexivity|].
  split.
  { intros key sim sim' N. unfold get_todays_matches_tennis, get_todays_matches_basketball.
    rewrite (K key N). split; reflexivity. }
  split.
  { intros key kvs e sim sim' N E T.
    unfold get_todays_matches_tennis, get_todays_matches_basketball.
    rewrite (K key N). simpl. rewrite E, T. split; reflexivity. }
  split.
  { intros key sim sim' N. unfold get_todays_matches_tennis, get_todays_matches_basketball.
    rewrite (K key N). split; reflexivity. }
  split.
  { intros key l sim N NE H. unfold get_todays_matches_tennis. rewrite (K key N).
    destruct l as [|x rest]; [contradiction|]. cbn -[format_records firstn format_tennis_match].
    f_equal. apply format_records_all_none. exact H. }
  split.
  { intros key l sim N NE H. unfold get_todays_matches_basketball. rewrite (K key N).
    destruct l as [|x rest]; [contradiction|]. cbn -[format_records firstn format_basketball_game].
    f_equal. apply format_records_all_none. exact H. }
  split.
  { intros key s sim N. unfold get_todays_matches_tennis. rewrite (K key N). simpl.
    destruct s as [|c s']; [right; split; reflexivity|left]. cbn -[format_records firstn map].
    f_equal. apply char_strs_skipped. exact format_tennis_match_str. }
  split.
  { intros key s sim N. unfold get_todays_matches_basketball. rewrite (K key N). simpl.
    destruct s as [|c s']; [right; split; reflexivity|left]. cbn -[format_records firstn map].
    f_equal. apply char_strs_skipped. exact format_basketball_game_str. }
  intros key kvs sim sim' N NE. unfold get_todays_matches_tennis, get_todays_matches_basketball.
  rewrite (K key N). simpl. destruct kvs as [|kv rest]; [contradiction|]. split; reflexivity.
Qed.

Lemma get_todays_matches_football_nonempty key fixtures :
  get_todays_matches_football key fixtures <> [].
Proof.
  unfold get_todays_matches_football, get_todays_matches_football_with.
  destruct (String.eqb key ""); [discriminate|].
  destruct fixtures as [[|x l]|]; try discriminate.
  destruct (map_fixtures_with fromisoformat_hhmm (x :: l)) as [[|m ms]|]; discriminate.
Qed.

(** X7.  The football list of [get_todays_matches] is never empty, whatever
    the key and the answer of the request: an empty or failed result falls
    back to the simulated list. *)
Theorem football_todays_matches_never_empty (key : string) (resp : http_response) :
  get_todays_matches_football_req key resp <> [].
Proof.
  unfold get_todays_matches_football_req.
  destruct (String.eqb key ""); [discriminate|].
  destruct (_make_request resp) as [[d|]|]; [|apply get_todays_matches_football_nonempty|discriminate].
  destruct (py_iter d); [apply get_todays_matches_football_nonempty | discriminate].
Qed.

Lemma football_strings_fallback key l :
  (forall x, In x l -> exists s, x = JStr s) ->
  get_todays_matches_football key (Some l) = simulated_football_matches.
Proof.
  intro H. unfold get_todays_matches_football, get_todays_matches_football_with.
  destruct (String.eqb key ""); [reflexivity|].
  destruct l as [|x rest]; [reflexivity|].
  destruct (H x (or_introl eq_refl)) as [s ->]. reflexivity.
Qed.

(** X8.  When the request does not return a list (it fails, reports an
    error, or its "response" is a string, an object, a number or null),
    football [get_todays_matches] returns the simulated list: iterating a
    string or an object yields strings, on which the loop body raises. *)
Theorem football_todays_matches_non_list (key : string) (resp : http_response)
    (H : forall l, _make_request resp <> Some (Some (JList l))) :
  get_todays_matches_football_req key resp = simulated_football_matches.
Proof.
  unfold get_todays_matches_football_req.
  destruct (String.eqb key "") eqn:K; [reflexivity|].
  destruct (_make_request resp) as [[d|]|] eqn:M.
  - destruct d as [| | | s | l | kvs]; try reflexivity.
    + apply football_strings_fallback. intros x Hx. cbn [py_iter] in Hx.
      apply in_map_iff in Hx. destruct Hx as [c [<- _]]. eexists. reflexivity.
    + exfalso. exact (H l eq_refl).
    + apply football_strings_fallback. intros x Hx. cbn [py_iter] in Hx.
      apply in_map_iff in Hx. destruct Hx as [k [<- _]]. eexists. reflexivity.
  - unfold get_todays_matches_football, get_todays_matches_football_with. rewrite K. reflexivity.
  - reflexivity.
Qed.

Lemma football_todays_matches_non_list_witness :
  get_todays_matches_football_req "key" (Body (JObj [("response", JStr "oops")])) =
    simulated_football_matches.
Proof.
  apply football_todays_matches_non_list. intro l. vm_compute. discriminate.
Defined.

Ltac destruct_goal_match :=
  match goal with
  | |- context [match ?x with _ => _ end] =>
      lazymatch x with
      | context [match _ with _ => _ end] => fail
      | _ => let E := fresh "E" in destruct x eqn:E
      end
  end.

(** X9.  For a supported league code [get_standings] always reports the
    league's display name, whether the rows come from the API or from the
    simulation; for an unsupported code, and whenever the key is empty, it
    returns the simulated standings, named "Unknown League" for an
    unsupported code. *)
Theorem football_standings_league_name :
  (forall key code resp n, league_name_of_code code = Some n ->
     fst (get_standings_football key code resp) = n) /\
  (forall key code resp, league_name_of_code code = None ->
     get_standings_football key code resp = _get_simulated_standings code /\
     fst (get_standings_football key code resp) = "Unknown League" /\
     List.length (snd (get_standings_football key code resp)) = 5%nat) /\
  (forall code resp, get_standings_football "" code resp = _get_simulated_standings code).
Proof.
  split; [|split].
  - intros key code resp n H.
    unfold get_standings_football, _get_simulated_standings. rewrite H.
    destruct (String.eqb key ""); [reflexivity|]. cbv zeta.
    repeat (destruct_goal_match; cbn [fst]; try reflexivity).
  - intros key code resp H.
    unfold get_standings_football. rewrite H.
    unfold _get_simulated_standings. rewrite H. repeat split.
  - intros code resp. unfold get_standings_football.
    destruct (league_name_of_code code); reflexivity.
Qed.

Lemma map_all_length {A B : Type} (f : A -> option B) xs ys :
  map_all f xs = Some ys -> List.length ys = List.length xs.
Proof.
  revert ys. induction xs as [|x rest IH]; intros ys H; simpl in H.
  - inversion H. reflexivity.
  - destruct (f x); [|discriminate]. destruct (map_all f rest) as [zs|] eqn:E; [|discriminate].
    inversion H; subst. simpl. f_equal. apply IH. reflexivity.
Qed.

Lemma map_all_none {A B : Type} (f : A -> option B) l1 x l2 :
  f x = None -> map_all f (l1 ++ x :: l2) = None.
Proof.
  intro H. induction l1 as [|y rest IH]; simpl.
  - rewrite H. reflexivity.
  - rewrite IH. destruct (f y); reflexivity.
Qed.

(** X10.  With a key and a supported code, standings whose first group is
    a list of well-formed rows are returned in full (no cap on their
    number) under the league's name; a single malformed row anywhere in
    the group makes the whole result the simulated standings, and so does
    an empty list of groups. *)
Theorem football_standings_api (key code n : string)
    (Hkey : key <> "") (Hcode : league_name_of_code code = Some n) :
  (forall ranks gs rows, map_all map_standing ranks = Some rows ->
     get_standings_football key code (standings_payload (JList ranks :: gs)) = (n, rows) /\
     List.length rows = List.length ranks) /\
  (forall l1 x l2 gs, map_standing x = None ->
     get_standings_football key code (standings_payload (JList (l1 ++ x :: l2) :: gs)) =
       _get_simulated_standings code) /\
  get_standings_football key code (standings_payload []) = _get_simulated_standings code.
Proof.
  assert (K : String.eqb key "" = false) by (apply String.eqb_neq; exact Hkey).
  split; [|split].
  - intros ranks gs rows H. split; [|exact (map_all_length _ _ _ H)].
    unfold get_standings_football. rewrite Hcode, K. cbn -[map_all _get_simulated_standings].
    rewrite H. reflexivity.
  - intros l1 x l2 gs H.
    unfold get_standings_football. rewrite Hcode, K. cbn -[map_all _get_simulated_standings].
    rewrite (map_all_none _ _ _ _ H). reflexivity.
  - unfold get_standings_football. rewrite Hcode, K. reflexivity.
Qed.

Lemma football_standings_api_witness :
  (forall ranks gs rows, map_all map_standing ranks = Some rows ->
     get_standings_football "key" "SA" (standings_payload (JList ranks :: gs)) =
       ("🇮🇹 Serie A", rows) /\ List.length rows = List.length ranks) /\
  (forall l1 x l2 gs, map_standing x = None ->
     get_standings_football "key" "SA" (standings_payload (JList (l1 ++ x :: l2) :: gs)) =
       _get_simulated_standings "SA") /\
  get_standings_football "key" "SA" (standings_payload []) = _get_simulated_standings "SA".
Proof.
  apply football_standings_api; [discriminate | reflexivity].
Defined.

(** ** Properties of the bot's simulated standings *)

Lemma randint_ok a b v : a <= v <= b -> randint a b v = Some v.
Proof. intro H. unfold randint. destruct (Z.leb_spec a b); [reflexivity | lia]. Qed.

Lemma bot_standing_row_valid i t d :
  valid_draw d ->
  exists r, bot_standing_row i t d = Some r /\ bs_position r = i /\ bs_team r = t /\ bot_row_ok r.
Proof.
  intros (P & W & D & F & A). unfold bot_standing_row.
  rewrite (randint_ok 20 30 _ P), (randint_ok _ _ _ W), (randint_ok _ _ _ D),
          (randint_ok _ _ _ F), (randint_ok _ _ _ A).
  eexists. split; [reflexivity|]. unfold bot_row_ok.
  cbn [bs_position bs_team bs_played bs_won bs_draw bs_lost bs_gf bs_ga bs_gd bs_points].
  repeat split; (reflexivity || lia).
Qed.

Lemma bot_standing_rows_valid draws teams k :
  (forall j, (k <= j < k + List.length teams)%nat -> valid_draw (draws j)) ->
  exists rows, bot_standing_rows draws k teams = Some rows /\
    map bs_position rows = map (fun j => Z.of_nat (S j)) (seq k (List.length teams)) /\
    Forall bot_row_ok rows.
Proof.
  revert k. induction teams as [|t rest IH]; intros k H.
  - exists []. split; [reflexivity|]. split; constructor.
  - destruct (bot_standing_row_valid (Z.of_nat (S k)) t (draws k)) as [r [E [Pos [_ Ok]]]].
    { apply H. simpl. lia. }
    destruct (IH (S k)) as [rows [E' [Ps Oks]]].
    { intros j Hj. apply H. simpl. lia. }
    exists (r :: rows). cbn [bot_standing_rows]. rewrite E, E'. split; [reflexivity|].
    split; [cbn [map seq List.length]; rewrite Pos, Ps; reflexivity | constructor; assumption].
Qed.

Lemma bot_standing_row_raises i t d :
  sd_won d = sd_played d - 5 -> bot_standing_row i t d = None.
Proof.
  intro W. unfold bot_standing_row, randint.
  destruct (20 <=? 30); [|reflexivity].
  destruct (sd_played d / 2 <=? sd_played d - 5); [|reflexivity].
  rewrite W. destruct (Z.leb_spec 3 (sd_played d - (sd_played d - 5) - 3)); [lia | reflexivity].
Qed.

Lemma bot_standing_rows_raises draws teams k j :
  (k <= j < k + List.length teams)%nat -> sd_won (draws j) = sd_played (draws j) - 5 ->
  bot_standing_rows draws k teams = None.
Proof.
  revert k. induction teams as [|t rest IH]; intros k Hj W; simpl in Hj; [lia|].
  cbn [bot_standing_rows]. destruct (Nat.eq_dec j k) as [->|N].
  - rewrite (bot_standing_row_raises _ _ _ W). reflexivity.
  - destruct (bot_standing_row (Z.of_nat (S k)) t (draws k)); [|reflexivity].
    rewrite (IH (S k)); [reflexivity | lia | exact W].
Qed.

Lemma insert_by_points_perm r l : Permutation (insert_by_points r l) (r :: l).
Proof.
  induction l as [|q rest IH]; simpl; [reflexivity|].
  destruct (bs_points q <=? bs_points r); [reflexivity|].
  transitivity (q :: r :: rest); [constructor; exact IH | apply perm_swap].
Qed.

Lemma sort_by_points_desc_perm l : Permutation (sort_by_points_desc l) l.
Proof.
  induction l as [|r rest IH]; simpl; [reflexivity|].
  rewrite insert_by_points_perm. constructor. exact IH.
Qed.

Lemma insert_by_points_sorted r l :
  Sorted points_ge l -> Sorted points_ge (insert_by_points r l).
Proof.
  induction l as [|q rest IH]; intro S; simpl.
  - constructor; constructor.
  - destruct (bs_points q <=? bs_points r) eqn:E.
    + apply Z.leb_le in E. constructor; [exact S|]. constructor. exact E.
    + apply Z.leb_gt in E. inversion S; subst.
      constructor; [apply IH; assumption|].
      destruct rest as [|q' rest']; simpl.
      * constructor. unfold points_ge. lia.
      * destruct (bs_points q' <=? bs_points r); constructor.
        -- unfold points_ge. lia.
        -- inversion H2. assumption.
Qed.

Lemma sort_by_points_desc_sorted l : Sorted points_ge (sort_by_points_desc l).
Proof.
  induction l as [|r rest IH]; simpl; [constructor|].
  apply insert_by_points_sorted. exact IH.
Qed.

Lemma bot_league_teams code :
  In code ["SA"; "PL"; "PD"; "BL1"] ->
  exists name teams,
    find (fun '(c, _) => String.eqb c code) bot_leagues = Some (code, name) /\
    find (fun '(c, _) => String.eqb c code) teams_map = Some (code, teams) /\
    List.length teams = 8%nat.
Proof.
  intro H. repeat (destruct H as [<-|H]; [do 2 eexists; split; [reflexivity|]; split; reflexivity|]).
  destruct H.
Qed.

(** X11.  For a supported code, when every value [random.randint] returns
    lies in its range, [DataManager.get_standings] returns 8 rows sorted by
    decreasing points, holding the positions 1..8 once each (the position is
    the one before sorting); in every row won + draw + lost = played,
    points = 3 * won + draw, gd = gf - ga, and both the draws and the
    losses are at least 3. *)
Theorem bot_standings_valid (code : string) (draws : nat -> standing_draws)
    (Hcode : In code ["SA"; "PL"; "PD"; "BL1"])
    (Hdraws : forall k, (k < 8)%nat -> valid_draw (draws k)) :
  exists name rows, get_standings_bot code draws = Some (name, rows) /\
    List.length rows = 8%nat /\ Sorted points_ge rows /\
    Permutation (map bs_position rows) [1; 2; 3; 4; 5; 6; 7; 8] /\
    Forall bot_row_ok rows.
Proof.
  destruct (bot_league_teams code Hcode) as [name [teams [L [T N]]]].
  destruct (bot_standing_rows_valid draws teams 0) as [rows [E [Ps Oks]]].
  { intros j Hj. apply Hdraws. lia. }
  exists name, (sort_by_points_desc rows).
  unfold get_standings_bot. rewrite L, T, E.
  assert (P := sort_by_points_desc_perm rows).
  split; [reflexivity|].
  split; [rewrite (Permutation_length P), <- (length_map bs_position), Ps, length_map, length_seq; exact N|].
  split; [apply sort_by_points_desc_sorted|].
  split.
  - rewrite (Permutation_map bs_position P), Ps, N. reflexivity.
  - rewrite Forall_forall in *. intros r Hr. apply Oks.
    apply (Permutation_in _ P). exact Hr.
Qed.

Lemma bot_standings_valid_witness :
  exists name rows, get_standings_bot "SA"
      (fun _ => {| sd_played := 20; sd_won := 10; sd_draw := 3; sd_gf := 30; sd_ga := 15 |})
      = Some (name, rows) /\
    List.length rows = 8%nat /\ Sorted points_ge rows /\
    Permutation (map bs_position rows) [1; 2; 3; 4; 5; 6; 7; 8] /\
    Forall bot_row_ok rows.
Proof.
  apply bot_standings_valid.
  - simpl. left. reflexivity.
  - intros k _. unfold valid_draw. repeat split; vm_compute; discriminate.
Defined.

(** X12.  [DataManager.get_standings] raises [ValueError] for a supported
    code as soon as one of the 8 teams draws the largest number of wins
    [played - 5]: the range of the draws, [randint(3, played - won - 3)],
    is then empty. *)
Theorem bot_standings_raise (code : string) (draws : nat -> standing_draws) (k : nat)
    (Hcode : In code ["SA"; "PL"; "PD"; "BL1"]) (Hk : (k < 8)%nat)
    (Hwon : sd_won (draws k) = sd_played (draws k) - 5) :
  get_standings_bot code draws = None.
Proof.
  destruct (bot_league_teams code Hcode) as [name [teams [L [T N]]]].
  unfold get_standings_bot. rewrite L, T.
  rewrite (bot_standing_rows_raises draws teams 0 k); [reflexivity | lia | exact Hwon].
Qed.

Lemma bot_standings_raise_witness :
  get_standings_bot "PL"
    (fun _ => {| sd_played := 25; sd_won := 20; sd_draw := 3; sd_gf := 30; sd_ga := 15 |}) = None.
Proof.
  apply (bot_standings_raise "PL" _ 0).
  - simpl. right. left. reflexivity.
  - lia.
  - reflexivity.
Defined.

(** ** Properties of the persistence gateway *)

Lemma get_or_create_user_found st now tid un fn ln :
  exists u, find (fun u => u_telegram_id u =? tid) (users (snd (get_or_create_user st now tid un fn ln))) = Some u /\
    u_id u = u_id (fst (get_or_create_user st now tid un fn ln)).
Proof.
  unfold get_or_create_user.
  destruct (find (fun u => u_telegram_id u =? tid) (users st)) as [old|] eqn:F.
  - unfold set_users; cbn [users fst snd].
    rewrite (find_map_preserving _ _ _ (touch_rows_tid tid now un fn ln (u_id old))), F.
    cbn [option_map]. rewrite Z.eqb_refl. eexists. split; reflexivity.
  - unfold set_users; cbn [users fst snd].
    rewrite (find_app_last _ _ _ F) by (apply Z.eqb_refl).
    eexists. split; reflexivity.
Qed.

Lemma get_or_create_user_existing st now tid un fn ln u :
  find (fun u => u_telegram_id u =? tid) (users st) = Some u ->
  u_id (fst (get_or_create_user st now tid un fn ln)) = u_id u.
Proof. intro F. unfold get_or_create_user. rewrite F. reflexivity. Qed.

Lemma add_prediction_users v st p : users (add_prediction v st p) = users st.
Proof. reflexivity. Qed.

Lemma add_prediction_table_same v st p :
  table v (add_prediction v st p) = (table v st ++ [p])%list.
Proof. destruct v; reflexivity. Qed.

Lemma add_prediction_table_other v w st p :
  w <> v -> table w (add_prediction v st p) = table w st.
Proof. intro N. destruct v, w; try reflexivity; contradiction. Qed.

Lemma insert_desc_older p l :
  (forall q, In q l -> p_created_at q < p_created_at p) -> insert_desc p l = p :: l.
Proof.
  destruct l as [|q rest]; intro H; [reflexivity|].
  simpl. assert (Lt := H q (or_introl eq_refl)). apply Z.ltb_lt in Lt. rewrite Lt. reflexivity.
Qed.

Lemma insert_desc_newer_head p x l :
  p_created_at x < p_created_at p -> insert_desc x (p :: l) = p :: insert_desc x l.
Proof.
  intro H. simpl. destruct (Z.ltb_spec (p_created_at p) (p_created_at x)); [lia | reflexivity].
Qed.

(** The newest row goes first when every other row is strictly older. *)
Lemma order_by_created_desc_last l p :
  (forall q, In q l -> p_created_at q < p_created_at p) ->
  order_by_created_desc (l ++ [p])%list = p :: order_by_created_desc l.
Proof.
  induction l as [|x rest IH]; intro H; [reflexivity|].
  cbn [app order_by_created_desc]. rewrite IH by (intros q Hq; apply H; right; exact Hq).
  apply insert_desc_newer_head. apply H. left. reflexivity.
Qed.

(** X13.  After [save_prediction] (or its tennis or basketball version) for
    a platform id, the statistics of that id count one more prediction and
    the same number of correct ones; the saved row is pending, stamped with
    the current time, and points to the primary key of the (single, by
    [get_or_create_user]) user row holding that platform id; it heads the
    recent list when the user's earlier rows of the table are all strictly
    older; the tables of the other two sports are unchanged. *)
Theorem save_then_stats (v : variant) (st : db) (now tid pid : Z) :
  let '(s0, _) := get_stats v st now tid in
  let '(p, st1) := save_prediction v st now tid pid in
  let '(s1, _) := get_stats v st1 now tid in
  total_predictions s1 = total_predictions s0 + 1 /\
  correct_predictions s1 = correct_predictions s0 /\
  p_is_correct p = None /\ p_created_at p = now /\
  (exists u, find (fun u => u_telegram_id u =? tid) (users st1) = Some u /\ p_user_id p = u_id u) /\
  (forall w, w <> v -> table w st1 = table w st) /\
  ((forall q, In q (table v st) -> p_user_id q = p_user_id p -> p_created_at q < now) ->
   hd_error (recent_predictions s1) = Some p).
Proof.
  unfold get_stats, save_prediction.
  destruct (get_or_create_user_found st now tid None None None) as [u [F Hu]].
  destruct (get_or_create_user st now tid None None None) as [user st1] eqn:G.
  cbn [fst snd] in F, Hu.
  assert (T : forall w, table w st1 = table w st).
  { intro w. rewrite <- (get_or_create_user_table w st now tid None None None), G. reflexivity. }
  set (p := {| p_id := pid; p_user_id := u_id user; p_is_correct := None; p_created_at := now |}).
  set (st2 := add_prediction v st1 p).
  assert (Id2 : u_id (fst (get_or_create_user st2 now tid None None None)) = u_id user).
  { rewrite (get_or_create_user_existing st2 now tid None None None u); [exact Hu|].
    unfold st2. rewrite add_prediction_users. exact F. }
  destruct (get_or_create_user st2 now tid None None None) as [user2 st3] eqn:G2.
  cbn [fst] in Id2.
  assert (T3 : table v st3 = (table v st ++ [p])%list).
  { transitivity (table v st2).
    - rewrite <- (get_or_create_user_table v st2 now tid None None None), G2. reflexivity.
    - unfold st2. rewrite add_prediction_table_same, T. reflexivity. }
  cbn [total_predictions correct_predictions recent_predictions].
  rewrite T3, T, Id2, filter_app.
  cbn [filter p p_user_id p_is_correct]. rewrite Z.eqb_refl.
  rewrite filter_app. cbn [filter app].
  rewrite !length_app. cbn [List.length].
  assert (Pc : p_is_correct p = None) by reflexivity.
  split; [lia|]. split; [rewrite Pc; cbn [List.length]; lia|].
  split; [reflexivity|]. split; [reflexivity|].
  split; [exists u; split; [unfold st2; rewrite add_prediction_users; exact F | symmetry; exact Hu]|].
  split.
  { intros w N. unfold st2. rewrite add_prediction_table_other, T by exact N. reflexivity. }
  intro H. rewrite order_by_created_desc_last; [reflexivity|].
  intros q Hq. apply filter_In in Hq. destruct Hq as [Hq E]. apply Z.eqb_eq in E.
  apply H; assumption.
Qed.

Lemma filter_length_mono {A : Type} (f g : A -> bool) (l : list A) :
  (forall x, f x = true -> g x = true) ->
  (List.length (filter f l) <= List.length (filter g l))%nat.
Proof.
  intro H. induction l as [|x rest IH]; simpl; [lia|].
  destruct (f x) eqn:E.
  - rewrite (H x E). simpl. lia.
  - destruct (g x); simpl; lia.
Qed.

Lemma in_firstn {A : Type} n (l : list A) x : In x (firstn n l) -> In x l.
Proof. intro H. rewrite <- (firstn_skipn n l). apply in_or_app. left. exact H. Qed.

Lemma filter_length_bound {A : Type} (f : A -> bool) (l : list A) :
  (List.length (filter f l) <= List.length l)%nat.
Proof. induction l as [|x rest IH]; simpl; [lia|]. destruct (f x); simpl; lia. Qed.

Lemma filter_length_split {A : Type} (f : A -> bool) (l : list A) :
  List.length l = (List.length (filter f l) + List.length (filter (fun x => negb (f x)) l))%nat.
Proof.
  induction l as [|x rest IH]; simpl; [reflexivity|].
  destruct (f x); simpl; lia.
Qed.

Lemma share_le_100 (c t : Z) : 0 <= c <= t -> 0 < t -> (inject_Z c / inject_Z t * 100 <= 100)%Q.
Proof.
  intros H Ht.
  assert (E : (inject_Z c / inject_Z t * 100 == inject_Z (c * 100) / inject_Z t)%Q).
  { rewrite inject_Z_mult. field. apply inject_Z_neq0. exact Ht. }
  rewrite E. apply Qle_shift_div_r; [apply inject_Z_pos; exact Ht|].
  change 100%Q with (inject_Z 100).
  rewrite <- inject_Z_mult. rewrite <- Zle_Qle. lia.
Qed.

Lemma ratio_bounds (c t : Z) : 0 <= c <= t ->
  (0 <= (if 0 <? t then inject_Z c / inject_Z t * 100 else 0) <= 100)%Q.
Proof.
  intro H. destruct (Z.ltb_spec 0 t) as [Ht|Ht]; [|split; discriminate].
  split; [apply (share_nonneg c t); lia | apply share_le_100; lia].
Qed.

(** X14.  The statistics of a user keep 0 <= correct <= total and an
    accuracy between 0 and 100; the recent list holds min(5, total) rows,
    each a row of the variant's table whose user is the caller. *)
Theorem get_stats_bounds (v : variant) (st : db) (now tid : Z) :
  let '(s, _) := get_stats v st now tid in
  let user := fst (get_or_create_user st now tid None None None) in
  0 <= correct_predictions s <= total_predictions s /\
  (0 <= accuracy s <= 100)%Q /\
  Z.of_nat (List.length (recent_predictions s)) = Z.min 5 (total_predictions s) /\
  Forall (fun q => In q (table v st) /\ p_user_id q = u_id user) (recent_predictions s).
Proof.
  unfold get_stats.
  destruct (get_or_create_user st now tid None None None) as [user st1] eqn:G.
  assert (T : table v st1 = table v st).
  { rewrite <- (get_or_create_user_table v st now tid None None None), G. reflexivity. }
  cbn [fst total_predictions correct_predictions accuracy recent_predictions].
  rewrite T.
  set (mine := filter (fun p => p_user_id p =? u_id user) (table v st)).
  set (correct := filter (fun p => match p_is_correct p with Some true => true | _ => false end) mine).
  assert (C : (List.length correct <= List.length mine)%nat).
  { unfold correct. apply filter_length_bound. }
  split; [lia|].
  split.
  { assert (B := ratio_bounds (Z.of_nat (List.length correct)) (Z.of_nat (List.length mine)) ltac:(lia)).
    destruct B as [B1 B2]. split.
    - apply round1_ge; [reflexivity | exact B1].
    - apply round1_le; [reflexivity | exact B2]. }
  split.
  { rewrite length_firstn, (Permutation_length (order_by_created_desc_perm mine)). lia. }
  rewrite Forall_forall. intros q Hq.
  apply in_firstn in Hq. apply (Permutation_in _ (order_by_created_desc_perm mine)) in Hq.
  unfold mine in Hq. apply filter_In in Hq. destruct Hq as [Hq E]. apply Z.eqb_eq in E.
  split; assumption.
Qed.

Lemma edge_ge_trans a b c : edge_ge a b = true -> edge_ge b c = true -> edge_ge a c = true.
Proof.
  destruct a as [x|], b as [y|], c as [z|]; simpl; try discriminate; try reflexivity.
  intros H1 H2. apply Qle_bool_iff in H1, H2. apply Qle_bool_iff. lra.
Qed.

Lemma edge_ge_total a b : edge_ge a b = false -> edge_ge b a = true.
Proof.
  destruct a as [x|], b as [y|]; simpl; try discriminate; try reflexivity.
  intro H. apply Qle_bool_iff. destruct (Qlt_le_dec x y) as [L|L]; [lra|].
  apply Qle_bool_iff in L. congruence.
Qed.

Lemma insert_by_edge_perm b l : Permutation (insert_by_edge b l) (b :: l).
Proof.
  induction l as [|c rest IH]; simpl; [reflexivity|].
  destruct (edge_ge (vb_edge b) (vb_edge c)); [reflexivity|].
  transitivity (c :: b :: rest); [constructor; exact IH | apply perm_swap].
Qed.

Lemma order_by_edge_desc_perm l : Permutation (order_by_edge_desc l) l.
Proof.
  induction l as [|b rest IH]; simpl; [reflexivity|].
  rewrite insert_by_edge_perm. constructor. exact IH.
Qed.

Lemma insert_by_edge_sorted b l : Sorted edge_before l -> Sorted edge_before (insert_by_edge b l).
Proof.
  induction l as [|c rest IH]; intro S; simpl.
  - constructor; constructor.
  - destruct (edge_ge (vb_edge b) (vb_edge c)) eqn:E.
    + constructor; [exact S|]. constructor. exact E.
    + apply edge_ge_total in E. inversion S; subst.
      constructor; [apply IH; assumption|].
      destruct rest as [|c' rest']; simpl.
      * constructor. exact E.
      * destruct (edge_ge (vb_edge b) (vb_edge c')); constructor; [exact E|].
        inversion H2. assumption.
Qed.

Lemma order_by_edge_desc_sorted l : Sorted edge_before (order_by_edge_desc l).
Proof.
  induction l as [|b rest IH]; simpl; [constructor|].
  apply insert_by_edge_sorted. exact IH.
Qed.

Lemma strongly_sorted_app {A : Type} (R : A -> A -> Prop) l1 l2 :
  StronglySorted R (l1 ++ l2) -> forall a b, In a l1 -> In b l2 -> R a b.
Proof.
  induction l1 as [|x rest IH]; intros S a b Ha Hb; [destruct Ha|].
  simpl in S. apply StronglySorted_inv in S. destruct S as [S F].
  destruct Ha as [<-|Ha].
  - rewrite Forall_forall in F. apply F. apply in_or_app. right. exact Hb.
  - exact (IH S a b Ha Hb).
Qed.

Lemma strongly_sorted_prefix {A : Type} (R : A -> A -> Prop) l1 l2 :
  StronglySorted R (l1 ++ l2) -> StronglySorted R l1.
Proof.
  induction l1 as [|x rest IH]; intro S; [constructor|].
  simpl in S. apply StronglySorted_inv in S. destruct S as [S F].
  constructor; [exact (IH S)|].
  rewrite Forall_forall in *. intros y Hy. apply F. apply in_or_app. left. exact Hy.
Qed.

(** X15.  [get_todays_value_bets] returns at most 10 bets, each active and
    expiring strictly between now and 24 hours later, ordered by decreasing
    edge with the bets of unknown edge first; when at most 10 bets qualify
    it returns all of them, otherwise every qualifying bet left out comes
    after each returned one in that order. *)
Theorem todays_value_bets_spec (bets : list value_bet) (today : Z) :
  let r := get_todays_value_bets bets today in
  let ok := filter (value_bet_filter today) bets in
  (List.length r <= 10)%nat /\
  Forall (fun b => vb_is_active b = Some true /\
                   exists e, vb_expires_at b = Some e /\ today < e < today + one_day) r /\
  Sorted edge_before r /\
  ((List.length ok <= 10)%nat -> Permutation r ok) /\
  (forall b c, In b ok -> ~ In b r -> In c r -> edge_before c b).
Proof.
  intros r ok.
  assert (P := order_by_edge_desc_perm ok).
  assert (S := order_by_edge_desc_sorted ok).
  split; [apply firstn_length_le_bound|].
  split.
  { rewrite Forall_forall. intros b Hb. apply in_firstn in Hb.
    apply (Permutation_in _ P) in Hb. apply filter_In in Hb. destruct Hb as [_ F].
    unfold value_bet_filter in F.
    destruct (vb_is_active b) as [[|]|], (vb_expires_at b) as [e|]; try discriminate.
    apply andb_true_iff in F. destruct F as [F1 F2].
    apply Z.ltb_lt in F1, F2. split; [reflexivity|]. exists e. split; [reflexivity | lia]. }
  split.
  { unfold r, get_todays_value_bets. fold ok.
    rewrite <- (firstn_skipn 10 (order_by_edge_desc ok)) in S.
    apply Sorted_StronglySorted in S; [|intros x y z; apply edge_ge_trans].
    apply StronglySorted_Sorted. exact (strongly_sorted_prefix _ _ _ S). }
  split.
  { intro L. unfold r, get_todays_value_bets. fold ok.
    rewrite firstn_all2; [exact P|]. rewrite (Permutation_length P). exact L. }
  intros b c Hb Nb Hc.
  apply Sorted_StronglySorted in S; [|intros x y z; apply edge_ge_trans].
  rewrite <- (firstn_skipn 10 (order_by_edge_desc ok)) in S.
  apply (strongly_sorted_app _ _ _ S); [exact Hc|].
  apply (Permutation_in _ (Permutation_sym P)) in Hb.
  rewrite <- (firstn_skipn 10 (order_by_edge_desc ok)) in Hb.
  apply in_app_or in Hb. destruct Hb as [Hb|Hb]; [contradiction | exact Hb].
Qed.

Lemma settled_count (ps : list prediction_row) :
  Z.of_nat (List.length ps) - Z.of_nat (List.length (filter is_pending ps)) =
  Z.of_nat (List.length (filter (fun p => negb (is_pending p)) ps)).
Proof. rewrite (filter_length_split is_pending ps) at 1. lia. Qed.

Lemma correct_le_settled (ps : list prediction_row) :
  (List.length (filter is_correct_true ps) <=
   List.length (filter (fun p => negb (is_pending p)) ps))%nat.
Proof.
  apply filter_length_mono. intro p. unfold is_correct_true, is_pending.
  destruct (p_is_correct p) as [[|]|]; simpl; congruence.
Qed.

(** X16.  The system accuracy of [dbstats_command] is the share of correct
    predictions among the settled ones (0 when none is settled), lies
    between 0 and 100, and does not move when a pending prediction is
    added. *)
Theorem system_accuracy_spec :
  (forall ps, system_accuracy ps =
     let settled := Z.of_nat (List.length (filter (fun p => negb (is_pending p)) ps)) in
     if 0 <? settled
     then (inject_Z (Z.of_nat (List.length (filter is_correct_true ps))) / inject_Z settled * 100)%Q
     else 0%Q) /\
  (forall ps, (0 <= system_accuracy ps <= 100)%Q) /\
  (forall l1 p l2, is_pending p = true ->
     system_accuracy (l1 ++ p :: l2)%list = system_accuracy (l1 ++ l2)%list).
Proof.
  assert (Eq : forall ps, system_accuracy ps =
     let settled := Z.of_nat (List.length (filter (fun p => negb (is_pending p)) ps)) in
     if 0 <? settled
     then (inject_Z (Z.of_nat (List.length (filter is_correct_true ps))) / inject_Z settled * 100)%Q
     else 0%Q).
  { intro ps. unfold system_accuracy. cbv zeta. rewrite settled_count. reflexivity. }
  split; [exact Eq|]. split.
  - intro ps. rewrite Eq. cbv zeta. apply ratio_bounds.
    assert (C := correct_le_settled ps). lia.
  - intros l1 p l2 Hp. unfold system_accuracy.
    assert (Hc : is_correct_true p = false).
    { unfold is_correct_true. unfold is_pending in Hp. destruct (p_is_correct p); congruence. }
    rewrite !filter_app. cbn [filter]. rewrite Hp, Hc. rewrite !length_app. cbn [List.length].
    replace (Z.of_nat (List.length l1 + S (List.length l2)) -
             Z.of_nat (List.length (filter is_pending l1) + S (List.length (filter is_pending l2))))
      with (Z.of_nat (List.length l1 + List.length l2) -
            Z.of_nat (List.length (filter is_pending l1) + List.length (filter is_pending l2))) by lia.
    reflexivity.
Qed.

(** ** Properties of the access control *)

Lemma py_lower_length s : String.length (py_lower s) = String.length s.
Proof. induction s; simpl; congruence. Qed.

Lemma py_in_app_l x l m : py_in x l = true -> py_in x (l ++ m)%list = true.
Proof. unfold py_in. rewrite existsb_app. intros ->. reflexivity. Qed.

Lemma py_in_app_last x l : py_in x (l ++ [x])%list = true.
Proof.
  unfold py_in. rewrite existsb_app. simpl. rewrite Z.eqb_refl, orb_true_r. reflexivity.
Qed.

(** X17.  [INVITE_ONLY] is on when the variable is unset and on only for a
    four-letter value ("true" in any case), so "1", "yes" or "on" turn it
    off; with it off, [access_control] runs the handler for every update
    and leaves the allowed set unchanged. *)
Theorem invite_only_setting :
  invite_only_of_env None = true /\
  invite_only_of_env (Some "TRUE") = true /\
  (forall s, invite_only_of_env (Some s) = true -> String.length s = 4%nat) /\
  (forall allowed u, access_control false allowed u = Some (RunHandler, allowed)).
Proof.
  split; [reflexivity|split; [reflexivity|split]].
  - intros s H. unfold invite_only_of_env in H. apply String.eqb_eq in H.
    rewrite <- py_lower_length, H. reflexivity.
  - intros allowed u. reflexivity.
Qed.

Lemma access_control_text allowed uid t (Hnew : py_in uid allowed = false) :
  access_control true allowed {| upd_user_id := uid; upd_message := Some (Some t) |} =
  if String.prefix "/start" t && String.eqb (nth 1 (py_split t) "") "invite123"
  then Some (InviteAccepted, (allowed ++ [uid])%list) else Some (AccessRestricted, allowed).
Proof.
  unfold access_control, is_user_allowed, add_user; cbn [upd_user_id upd_message negb].
  rewrite Hnew. cbn [negb snd].
  destruct t as [|c t']; [reflexivity|].
  assert (E : String.eqb (String c t') "" = false) by reflexivity.
  rewrite E. cbn [negb andb].
  destruct (String.prefix "/start" (String c t')); cbn [andb]; [|reflexivity].
  destruct (String.eqb (nth 1 (py_split (String c t')) "") "invite123") eqn:E2;
    rewrite ?andb_true_r, ?andb_false_r; [|reflexivity].
  destruct (Nat.ltb_spec 1 (List.length (py_split (String c t')))); [reflexivity|].
  apply String.eqb_eq in E2. rewrite nth_overflow in E2 by lia. discriminate E2.
Qed.

(** X18.  For a user outside the allowed set with invite-only on, a text
    message is accepted as an invitation, and the user appended to the set,
    exactly when it starts with "/start" and its second word is
    "invite123"; any other text, or a message without text, only gets the
    restriction notice; a button press (no message) raises; once added,
    every later update of that user runs the handler. *)
Theorem invite_code_flow allowed uid (Hnew : py_in uid allowed = false) :
  (forall t,
     access_control true allowed {| upd_user_id := uid; upd_message := Some (Some t) |}
       = Some (InviteAccepted, (allowed ++ [uid])%list) <->
     String.prefix "/start" t = true /\ nth 1 (py_split t) "" = "invite123") /\
  (forall t,
     access_control true allowed {| upd_user_id := uid; upd_message := Some (Some t) |}
       <> Some (InviteAccepted, (allowed ++ [uid])%list) ->
     access_control true allowed {| upd_user_id := uid; upd_message := Some (Some t) |}
       = Some (AccessRestricted, allowed)) /\
  access_control true allowed {| upd_user_id := uid; upd_message := Some None |}
    = Some (AccessRestricted, allowed) /\
  access_control true allowed {| upd_user_id := uid; upd_message := None |} = None /\
  (forall m, access_control true (allowed ++ [uid])%list {| upd_user_id := uid; upd_message := m |}
      = Some (RunHandler, (allowed ++ [uid])%list)).
Proof.
  split; [|split; [|split; [|split]]].
  - intros t. rewrite (access_control_text allowed uid t Hnew). split.
    + destruct (String.prefix "/start" t) eqn:P;
        destruct (String.eqb (nth 1 (py_split t) "") "invite123") eqn:Q;
        cbn [andb]; intros H; try discriminate H.
      split; [reflexivity|]. apply String.eqb_eq. exact Q.
    + intros [P Q]. rewrite P, (proj2 (String.eqb_eq _ _) Q). reflexivity.
  - intros t. rewrite (access_control_text allowed uid t Hnew).
    destruct (_ && _); [intros C; contradiction C; reflexivity|reflexivity].
  - unfold access_control, is_user_allowed; cbn [upd_user_id upd_message negb].
    rewrite Hnew. reflexivity.
  - unfold access_control, is_user_allowed; cbn [upd_user_id upd_message negb].
    rewrite Hnew. reflexivity.
  - intros m. unfold access_control, is_user_allowed; cbn [upd_user_id upd_message negb].
    rewrite py_in_app_last. reflexivity.
Qed.

Lemma invite_code_flow_witness :
  access_control true [5] {| upd_user_id := 7; upd_message := Some (Some "/startx invite123") |}
    = Some (InviteAccepted, [5; 7]).
Proof.
  apply (proj1 (invite_code_flow [5] 7 eq_refl) "/startx invite123").
  split; reflexivity.
Defined.

(** X19.  [access_control] never removes a user from the allowed set; the
    set changes only on an accepted invitation, which appends a user that
    was not in it. *)
Theorem access_control_keeps_users io allowed u o allowed'
  (H : access_control io allowed u = Some (o, allowed')) :
  (forall x, py_in x allowed = true -> py_in x allowed' = true) /\
  (o = InviteAccepted ->
     py_in (upd_user_id u) allowed = false /\ allowed' = (allowed ++ [upd_user_id u])%list) /\
  (o <> InviteAccepted -> allowed' = allowed).
Proof.
  unfold access_control in H.
  destruct (is_user_allowed io allowed (upd_user_id u)) eqn:A.
  { injection H as <- <-. split; [auto|split; [intros C; discriminate C|auto]]. }
  assert (Hn : py_in (upd_user_id u) allowed = false)
    by (destruct io; [exact A|discriminate A]).
  unfold add_user in H. rewrite Hn in H. cbn [negb snd] in H.
  destruct (upd_message u) as [[t|]|]; [|injection H as <- <-|discriminate H].
  - destruct (_ && _); [destruct (_ && _)|]; injection H as <- <-.
    + split; [intros x Hx; apply py_in_app_l; exact Hx|split; [auto|intros C; contradiction C; reflexivity]].
    + split; [auto|split; [intros C; discriminate C|auto]].
    + split; [auto|split; [intros C; discriminate C|auto]].
  - split; [auto|split; [intros C; discriminate C|auto]].
Qed.

Lemma access_control_keeps_users_witness :
  py_in 5 [5; 7] = true /\ py_in 7 [5] = false /\ [5; 7] = ([5] ++ [7])%list.
Proof.
  destruct (access_control_keeps_users true [5]
              {| upd_user_id := 7; upd_message := Some (Some "/start invite123") |}
              InviteAccepted [5; 7] ltac:(vm_compute; reflexivity)) as [A [B _]].
  split; [apply A; reflexivity|]. apply B. reflexivity.
Defined.

(** ** Properties of the admin identifiers *)

Lemma string_app_assoc (s1 s2 s3 : string) : ((s1 ++ s2) ++ s3)%string = (s1 ++ (s2 ++ s3))%string.
Proof. induction s1; simpl; congruence. Qed.

Lemma string_length_app (s1 s2 : string) :
  String.length (s1 ++ s2) = (String.length s1 + String.length s2)%nat.
Proof. induction s1; simpl; congruence. Qed.

Lemma list_ascii_of_string_app (s1 s2 : string) :
  list_ascii_of_string (s1 ++ s2) = (list_ascii_of_string s1 ++ list_ascii_of_string s2)%list.
Proof. induction s1; simpl; congruence. Qed.

Lemma parse_dec_app s1 s2 a :
  parse_dec (s1 ++ s2) a = match parse_dec s1 a with Some b => parse_dec s2 b | None => None end.
Proof.
  revert a; induction s1 as [|c s1 IH]; intros a; cbn [parse_dec String.append]; [reflexivity|].
  destruct (is_digit c); [apply IH|reflexivity].
Qed.

Lemma digit_char_ord d : 0 <= d <= 9 -> ord (digit_char d) = 48 + d.
Proof.
  intros Hd. unfold ord, digit_char. rewrite nat_ascii_embedding by lia. lia.
Qed.

Lemma digit_char_is_digit d : 0 <= d <= 9 -> is_digit (digit_char d) = true.
Proof.
  intros Hd. unfold is_digit. rewrite (digit_char_ord d Hd).
  apply andb_true_iff; split; apply Z.leb_le; lia.
Qed.

Lemma is_digit_facts c : is_digit c = true ->
  Ascii.eqb c "," = false /\ py_isspace c = false /\ py_isdigit_char c = true.
Proof.
  intros H. assert (Hr : 48 <= ord c <= 57).
  { unfold is_digit in H. apply andb_true_iff in H. destruct H as [H1 H2].
    apply Z.leb_le in H1, H2. lia. }
  split; [|split].
  - destruct (Ascii.eqb_spec c ","); [|reflexivity]. subst c.
    assert (E : ord "," = 44) by reflexivity. lia.
  - unfold py_isspace. cbv zeta.
    destruct (Z.leb_spec 9 (ord c)), (Z.leb_spec (ord c) 13), (Z.leb_spec 28 (ord c)),
      (Z.leb_spec (ord c) 32), (Z.eqb_spec (ord c) 133), (Z.eqb_spec (ord c) 160);
      cbn [andb orb]; (reflexivity || lia).
  - unfold py_isdigit_char. rewrite H. reflexivity.
Qed.

Lemma str_digits_acc f n acc : str_digits f n acc = (str_digits f n "" ++ acc)%string.
Proof.
  revert n acc; induction f as [|f IH]; intros n acc; cbn [str_digits]; [reflexivity|].
  destruct (n <? 10); [reflexivity|].
  rewrite (IH _ (String _ acc)), (IH _ (String _ "")), string_app_assoc. reflexivity.
Qed.

Lemma str_digits_spec f n : 0 <= n < Z.of_nat f ->
  digit_string (str_digits f n "") /\
  (forall a, parse_dec (str_digits f n "") a =
             Some (a * 10 ^ Z.of_nat (String.length (str_digits f n "")) + n)).
Proof.
  revert n; induction f as [|f IH]; intros n Hn; [lia|].
  cbn [str_digits].
  destruct (Z.ltb_spec n 10).
  - assert (Hd := digit_char_is_digit n ltac:(lia)).
    assert (Ho := digit_char_ord n ltac:(lia)).
    split; [split; [discriminate|]|].
    + cbn [list_ascii_of_string forallb]. rewrite Hd. reflexivity.
    + intros a. cbn [parse_dec String.length]. rewrite Hd, Ho.
      replace (10 ^ Z.of_nat 1) with 10 by reflexivity. f_equal. lia.
  - assert (Hm : 0 <= n mod 10 <= 9) by (pose proof (Z.mod_pos_bound n 10); lia).
    assert (Hq : 0 <= n / 10 < Z.of_nat f).
    { split; [apply Z.div_pos; lia|]. pose proof (Z.div_lt n 10 ltac:(lia) ltac:(lia)). lia. }
    destruct (IH (n / 10) Hq) as ((Hne & Hdig) & Hpar).
    rewrite str_digits_acc.
    assert (Hd := digit_char_is_digit (n mod 10) Hm).
    assert (Ho := digit_char_ord (n mod 10) Hm).
    split; [split|].
    + destruct (str_digits f (n / 10) ""); [contradiction Hne; reflexivity|discriminate].
    + rewrite list_ascii_of_string_app, forallb_app, Hdig.
      cbn [list_ascii_of_string forallb andb]. rewrite Hd. reflexivity.
    + intros a. rewrite parse_dec_app, Hpar. cbn [parse_dec]. rewrite Hd, Ho.
      rewrite string_length_app. cbn [String.length].
      rewrite Nat2Z.inj_add, Z.pow_add_r by lia.
      replace (10 ^ Z.of_nat 1) with 10 by reflexivity.
      pose proof (Z.div_mod n 10 ltac:(lia)). f_equal. nia.
Qed.

Lemma py_str_int_spec n : 0 <= n ->
  digit_string (py_str_int n) /\ py_int (py_str_int n) = Some n.
Proof.
  intros Hn. unfold py_str_int. destruct (Z.ltb_spec n 0); [lia|].
  destruct (str_digits_spec (S (Z.to_nat n)) n ltac:(lia)) as (A & C).
  split; [exact A|]. unfold py_int. now rewrite C.
Qed.

Lemma digits_no_comma l :
  forallb is_digit l = true -> forallb (fun c => negb (Ascii.eqb c ",")) l = true.
Proof.
  induction l as [|c l IH]; cbn [forallb]; intros H; [reflexivity|].
  apply andb_true_iff in H as [H1 H2].
  rewrite (proj1 (is_digit_facts c H1)), (IH H2). reflexivity.
Qed.

Lemma split_on_no_sep sep s :
  forallb (fun c => negb (Ascii.eqb c sep)) (list_ascii_of_string s) = true ->
  split_on sep s = [s].
Proof.
  induction s as [|c s IH]; cbn [split_on list_ascii_of_string forallb]; intros H; [reflexivity|].
  apply andb_true_iff in H as [H1 H2]. rewrite (IH H2).
  destruct (Ascii.eqb c sep); [discriminate H1|reflexivity].
Qed.

Lemma split_on_app sep s1 s2 :
  forallb (fun c => negb (Ascii.eqb c sep)) (list_ascii_of_string s1) = true ->
  split_on sep (s1 ++ String sep s2) = s1 :: split_on sep s2.
Proof.
  induction s1 as [|c s1 IH]; cbn [split_on list_ascii_of_string forallb String.append]; intros H.
  - rewrite Ascii.eqb_refl. reflexivity.
  - apply andb_true_iff in H as [H1 H2]. rewrite (IH H2).
    destruct (Ascii.eqb c sep); [discriminate H1|reflexivity].
Qed.

Lemma rstrip_digits s : forallb is_digit (list_ascii_of_string s) = true -> rstrip s = s.
Proof.
  induction s as [|c s IH]; cbn [rstrip list_ascii_of_string forallb]; intros H; [reflexivity|].
  apply andb_true_iff in H as [H1 H2].
  rewrite (IH H2), (proj1 (proj2 (is_digit_facts c H1))), andb_false_r. reflexivity.
Qed.

Lemma lstrip_digits s : forallb is_digit (list_ascii_of_string s) = true -> lstrip s = s.
Proof.
  destruct s as [|c s]; cbn [lstrip list_ascii_of_string forallb]; intros H; [reflexivity|].
  apply andb_true_iff in H as [H1 H2].
  rewrite (proj1 (proj2 (is_digit_facts c H1))). reflexivity.
Qed.

Lemma py_strip_digits s : digit_string s -> py_strip s = s.
Proof.
  intros [_ H]. unfold py_strip. rewrite (rstrip_digits s H). apply lstrip_digits, H.
Qed.

Lemma py_strip_space_digits s : digit_string s -> py_strip (String " " s) = s.
Proof.
  intros [Hne H]. unfold py_strip. cbn [rstrip]. rewrite (rstrip_digits s H).
  rewrite (proj2 (String.eqb_neq s "") Hne). cbn [andb lstrip].
  replace (py_isspace " ") with true by reflexivity. apply lstrip_digits, H.
Qed.

Lemma py_isdigit_digits s : digit_string s -> py_isdigit s = true.
Proof.
  intros [Hne H]. unfold py_isdigit. rewrite (proj2 (String.eqb_neq s "") Hne). cbn [negb andb].
  clear Hne. induction (list_ascii_of_string s) as [|c l IH]; cbn [forallb] in *; [reflexivity|].
  apply andb_true_iff in H as [H1 H2].
  rewrite (proj2 (proj2 (is_digit_facts c H1))), (IH H2). reflexivity.
Qed.

(** X20.  [str] and [int] are inverse on the identifiers ([int(str(n)) = n]
    for [n >= 0]); with [ADMIN_USER_ID] written "m, n" (a space after the
    comma) both identifiers are put in the allowed set at start-up, but the
    admin test [str(user_id) in ADMIN_USER_ID] recognises [m] and never
    [n] (unless it equals [m]). *)
Theorem admin_ids_with_space m n (Hm : 0 <= m) (Hn : 0 <= n) :
  py_int (py_str_int n) = Some n /\
  initial_allowed_users (Some (py_str_int m ++ ", " ++ py_str_int n))
    = Some (if m =? n then [m] else [m; n]) /\
  is_admin (Some (py_str_int m ++ ", " ++ py_str_int n)) m = true /\
  is_admin (Some (py_str_int m ++ ", " ++ py_str_int n)) n = (m =? n).
Proof.
  destruct (py_str_int_spec m Hm) as (Mdig & Mint).
  destruct (py_str_int_spec n Hn) as (Ndig & Nint).
  assert (Hsplit : ADMIN_USER_ID (Some (py_str_int m ++ ", " ++ py_str_int n))
                   = [py_str_int m; String " " (py_str_int n)]).
  { unfold ADMIN_USER_ID.
    change (", " ++ py_str_int n)%string with (String "," (String " " (py_str_int n))).
    rewrite split_on_app by (apply digits_no_comma; apply Mdig).
    rewrite split_on_no_sep; [reflexivity|].
    change (list_ascii_of_string (String " " (py_str_int n)))
      with (" "%char :: list_ascii_of_string (py_str_int n)).
    cbn [forallb]. rewrite (digits_no_comma _ (proj2 Ndig)). reflexivity. }
  split; [exact Nint|split; [|split]].
  - unfold initial_allowed_users. rewrite Hsplit. cbn [add_admins].
    rewrite (py_strip_digits _ Mdig), (py_strip_space_digits _ Ndig).
    rewrite (py_isdigit_digits _ Mdig), (py_isdigit_digits _ Ndig), Mint, Nint.
    unfold add_user, py_in. cbn [existsb negb snd List.app].
    rewrite Z.eqb_sym, orb_false_r. destruct (m =? n); reflexivity.
  - unfold is_admin. rewrite Hsplit. cbn [existsb]. rewrite String.eqb_refl. reflexivity.
  - unfold is_admin. rewrite Hsplit. cbn [existsb].
    assert (Sp : String.eqb (py_str_int n) (String " " (py_str_int n)) = false).
    { apply String.eqb_neq. intros E. apply (f_equal String.length) in E.
      cbn [String.length] in E. lia. }
    rewrite Sp, orb_false_r.
    destruct (String.eqb_spec (py_str_int n) (py_str_int m)) as [E|E].
    + rewrite E, Mint in Nint. injection Nint as ->. symmetry. apply Z.eqb_refl.
    + symmetry. apply Z.eqb_neq. intros <-. apply E. reflexivity.
Qed.

Lemma admin_ids_with_space_witness :
  initial_allowed_users (Some (py_str_int 123 ++ ", " ++ py_str_int 456)) = Some [123; 456] /\
  is_admin (Some (py_str_int 123 ++ ", " ++ py_str_int 456)) 456 = false.
Proof.
  destruct (admin_ids_with_space 123 456 ltac:(lia) ltac:(lia)) as (_ & A & _ & B).
  split; [exact A|exact B].
Defined.

Lemma py_isdigit_nonempty s : py_isdigit s = true -> String.eqb s "" = false.
Proof. unfold py_isdigit. destruct (String.eqb s ""); [discriminate|reflexivity]. Qed.

Lemma add_admins_check acc ids :
  add_admins acc ids =
  match check_admin_ids ids with
  | Some ns => Some (fold_left (fun s n => snd (add_user s n)) ns acc)
  | None => None
  end.
Proof.
  revert acc; induction ids as [|a ids IH]; intros acc; cbn [add_admins check_admin_ids];
    [reflexivity|].
  destruct (py_isdigit (py_strip a)) eqn:D.
  - rewrite (py_isdigit_nonempty _ D). cbn [negb andb].
    destruct (py_int (py_strip a)) as [n|]; [|reflexivity].
    rewrite IH. destruct (check_admin_ids ids); reflexivity.
  - rewrite andb_false_r. apply IH.
Qed.

(** X21.  check_admin.py computes the same allowed set as the bot's
    [SimpleUserStorage] from the same [ADMIN_USER_ID], and both raise on
    the same values, such as a lone superscript two (which [isdigit]
    accepts and [int] rejects). *)
Theorem check_admin_matches_bot env :
  check_admin_storage env = initial_allowed_users env /\
  initial_allowed_users (Some (String (ascii_of_nat 178) EmptyString)) = None.
Proof.
  split; [|reflexivity].
  unfold check_admin_storage, initial_allowed_users, ADMIN_USER_ID.
  rewrite add_admins_check. destruct (check_admin_ids _); reflexivity.
Qed.

(** ** Grouping of the match list by league *)

Lemma existsb_eqb_in k l : existsb (String.eqb k) l = true <-> In k l.
Proof.
  rewrite existsb_exists. split.
  - intros [y [Hy E]]. apply String.eqb_eq in E. subst y. exact Hy.
  - intros H. exists k. split; [exact H|apply String.eqb_refl].
Qed.

Lemma first_appearance_in seen l k :
  In k (first_appearance seen l) <-> In k l /\ ~ In k seen.
Proof.
  revert seen; induction l as [|y l IH]; intros seen; cbn [first_appearance In].
  - tauto.
  - destruct (existsb (String.eqb y) seen) eqn:E.
    + apply existsb_eqb_in in E. rewrite IH. split.
      * tauto.
      * intros [[<-|H] N]; [contradiction|tauto].
    + assert (Hy : ~ In y seen) by (intros H; apply existsb_eqb_in in H; congruence).
      cbn [In]. rewrite IH. cbn [In]. split.
      * intros [<-|[H N]]; tauto.
      * intros [[<-|H] N]; [left; reflexivity|].
        destruct (String.eqb_spec y k); [left; assumption|right; tauto].
Qed.

Lemma first_appearance_nodup seen l : NoDup (first_appearance seen l).
Proof.
  revert seen; induction l as [|y l IH]; intros seen; cbn [first_appearance]; [constructor|].
  destruct (existsb (String.eqb y) seen); [apply IH|].
  constructor; [|apply IH].
  rewrite first_appearance_in. intros [_ N]. apply N. left. reflexivity.
Qed.

Lemma first_appearance_snoc seen l k :
  first_appearance seen (l ++ [k])%list =
  (first_appearance seen l ++
     (if existsb (String.eqb k) (seen ++ l)%list then [] else [k]))%list.
Proof.
  revert seen; induction l as [|y l IH]; intros seen; cbn [first_appearance List.app].
  - rewrite app_nil_r. reflexivity.
  - destruct (existsb (String.eqb y) seen) eqn:E.
    + rewrite IH.
      assert (B : existsb (String.eqb k) (seen ++ l)%list =
                  existsb (String.eqb k) (seen ++ y :: l)%list).
      { apply Bool.eq_iff_eq_true. rewrite !existsb_eqb_in, !in_app_iff. cbn [In].
        apply existsb_eqb_in in E. split; [tauto|]. intros [H|[<-|H]]; tauto. }
      rewrite B. reflexivity.
    + cbn [List.app]. rewrite IH.
      assert (B : existsb (String.eqb k) ((y :: seen) ++ l)%list =
                  existsb (String.eqb k) (seen ++ y :: l)%list).
      { apply Bool.eq_iff_eq_true. rewrite !existsb_eqb_in, !in_app_iff. cbn [In]. tauto. }
      rewrite B. reflexivity.
Qed.

Lemma group_insert_map {A : Type} (f : string -> list A) k x ks :
  NoDup ks ->
  group_insert k x (map (fun k' => (k', f k')) ks) =
  if existsb (String.eqb k) ks
  then map (fun k' => (k', if String.eqb k' k then (f k' ++ [x])%list else f k')) ks
  else (map (fun k' => (k', f k')) ks ++ [(k, [x])])%list.
Proof.
  induction ks as [|k0 ks IH]; intros Hnd; cbn [map group_insert existsb]; [reflexivity|].
  inversion Hnd as [|? ? Hk0 Hnd']; subst.
  destruct (String.eqb_spec k k0) as [<-|Ne]; cbn [orb].
  - rewrite String.eqb_refl. f_equal. apply map_ext_in. intros k' Hk'.
    destruct (String.eqb_spec k' k) as [->|]; [contradiction|reflexivity].
  - rewrite IH by exact Hnd'.
    assert (E : String.eqb k0 k = false) by (apply String.eqb_neq; congruence).
    destruct (existsb (String.eqb k) ks); cbn [map List.app]; rewrite ?E; reflexivity.
Qed.

Lemma group_by_snoc {A : Type} (key : A -> string) xs x :
  group_by key (xs ++ [x])%list = group_insert (key x) x (group_by key xs).
Proof. unfold group_by. rewrite fold_left_app. reflexivity. Qed.

Lemma filter_snoc {A : Type} (f : A -> bool) l x :
  filter f (l ++ [x])%list = (filter f l ++ (if f x then [x] else []))%list.
Proof. rewrite filter_app. reflexivity. Qed.

Lemma filter_key_absent {A : Type} (key : A -> string) k xs :
  existsb (String.eqb k) (map key xs) = false ->
  filter (fun y => String.eqb (key y) k) xs = [].
Proof.
  induction xs as [|y xs IH]; cbn [map existsb filter]; intros H; [reflexivity|].
  apply orb_false_iff in H as [H1 H2]. rewrite String.eqb_sym, H1. apply IH, H2.
Qed.

Lemma group_by_closed {A : Type} (key : A -> string) xs :
  group_by key xs =
  map (fun k => (k, filter (fun y => String.eqb (key y) k) xs)) (first_appearance [] (map key xs)).
Proof.
  induction xs as [|x xs IH] using rev_ind; [reflexivity|].
  rewrite group_by_snoc, IH, map_app. cbn [map]. rewrite first_appearance_snoc.
  rewrite (group_insert_map (fun k => filter (fun y => String.eqb (key y) k) xs))
    by apply first_appearance_nodup.
  cbn [List.app].
  assert (Hin : existsb (String.eqb (key x)) (first_appearance [] (map key xs))
                = existsb (String.eqb (key x)) (map key xs)).
  { apply Bool.eq_iff_eq_true. rewrite !existsb_eqb_in, first_appearance_in. cbn [In]. tauto. }
  rewrite Hin.
  destruct (existsb (String.eqb (key x)) (map key xs)) eqn:E.
  - rewrite app_nil_r. apply map_ext. intros k. rewrite filter_snoc. cbv beta.
    rewrite (String.eqb_sym k (key x)).
    destruct (String.eqb (key x) k); [reflexivity|rewrite app_nil_r; reflexivity].
  - rewrite map_app. cbn [map]. f_equal.
    + apply map_ext_in. intros k Hk. rewrite filter_snoc. cbv beta.
      assert (Nk : String.eqb (key x) k = false).
      { apply String.eqb_neq. intros Ek. rewrite <- Ek in Hk. apply first_appearance_in in Hk.
        destruct Hk as [Hk _]. apply existsb_eqb_in in Hk. congruence. }
      rewrite Nk, app_nil_r. reflexivity.
    + rewrite filter_snoc. cbv beta.
      rewrite String.eqb_refl, (filter_key_absent key (key x) xs E). reflexivity.
Qed.

Lemma group_insert_total {A : Type} k (x : A) g :
  List.length (List.concat (map snd (group_insert k x g))) = S (List.length (List.concat (map snd g))).
Proof.
  induction g as [|[k' xs] g IH]; cbn [group_insert map snd List.concat]; [reflexivity|].
  destruct (String.eqb k k'); cbn [map snd List.concat]; rewrite !length_app;
    [cbn [List.length]; lia|].
  rewrite IH. lia.
Qed.

Lemma group_by_total {A : Type} (key : A -> string) xs :
  List.length (List.concat (map snd (group_by key xs))) = List.length xs.
Proof.
  induction xs as [|x xs IH] using rev_ind; [reflexivity|].
  rewrite group_by_snoc, group_insert_total, IH, length_app. cbn [List.length]. lia.
Qed.

(** X22.  The grouping of [todays_matches_command] yields one group per
    distinct league, in the order in which the leagues first appear, each
    group holding exactly the matches of its league in their original
    order; no match is lost or repeated in count. *)
Theorem group_by_league {A : Type} (key : A -> string) (xs : list A) :
  group_by key xs =
    map (fun k => (k, filter (fun y => String.eqb (key y) k) xs))
        (first_appearance [] (map key xs)) /\
  NoDup (map fst (group_by key xs)) /\
  (forall k, In k (map fst (group_by key xs)) <-> In k (map key xs)) /\
  List.length (List.concat (map snd (group_by key xs))) = List.length xs.
Proof.
  assert (Hf : map fst (group_by key xs) = first_appearance [] (map key xs)).
  { rewrite group_by_closed, map_map. erewrite map_ext; [apply map_id|]. intros; reflexivity. }
  split; [apply group_by_closed|split; [|split]].
  - rewrite Hf. apply first_appearance_nodup.
  - intros k. rewrite Hf, first_appearance_in. cbn [In]. tauto.
  - apply group_by_total.
Qed.

(** ** Properties of the simulated schedules *)

Lemma filter_length_compl {A : Type} (f : A -> bool) l :
  (List.length (filter f l) + List.length (filter (fun x => negb (f x)) l))%nat = List.length l.
Proof.
  induction l as [|x l IH]; cbn [filter List.length]; [reflexivity|].
  destruct (f x); cbn [negb List.length]; lia.
Qed.

Lemma available_length pool used :
  NoDup pool -> NoDup used -> incl used pool ->
  List.length (filter (fun p => negb (existsb (String.eqb p) used)) pool)
  = (List.length pool - List.length used)%nat.
Proof.
  intros Hp Hu Hinc.
  pose proof (filter_length_compl (fun p => existsb (String.eqb p) used) pool) as Hc.
  cbv beta in Hc.
  assert (Hin : forall x, In x (filter (fun p => existsb (String.eqb p) used) pool) <-> In x used).
  { intros x. rewrite filter_In, existsb_eqb_in. split; [tauto|]. intros H; split; auto. }
  assert (L1 : (List.length (filter (fun p => existsb (String.eqb p) used) pool) <= List.length used)%nat).
  { apply NoDup_incl_length; [apply NoDup_filter, Hp|intros x; apply Hin]. }
  assert (L2 : (List.length used <= List.length (filter (fun p => existsb (String.eqb p) used) pool))%nat).
  { apply NoDup_incl_length; [exact Hu|intros x; apply Hin]. }
  lia.
Qed.

Lemma pick_pairs_length pool sample k used n :
  List.length (pick_pairs pool sample k used n) = n.
Proof.
  revert k used; induction n as [|n IH]; intros k used; cbn [pick_pairs]; [reflexivity|].
  destruct (Nat.ltb _ 2); destruct (sample k _); cbn [List.length]; rewrite IH; reflexivity.
Qed.

Lemma pick_pairs_firstn pool sample m k used n :
  firstn m (pick_pairs pool sample k used n) = pick_pairs pool sample k used (Nat.min m n).
Proof.
  revert m k used; induction n as [|n IH]; intros m k used.
  - rewrite Nat.min_0_r. apply firstn_nil.
  - destruct m as [|m]; [reflexivity|]. cbn [Nat.min pick_pairs].
    destruct (Nat.ltb _ 2); destruct (sample k _); cbn [firstn]; rewrite IH; reflexivity.
Qed.

Section Sampler.

Variable sample : nat -> list string -> string * string.
Hypothesis Hs : valid_sampler sample.

Lemma sample_from l k :
  NoDup l -> (2 <= List.length l)%nat ->
  fst (sample k l) <> snd (sample k l) /\ In (fst (sample k l)) l /\ In (snd (sample k l)) l.
Proof.
  intros Hnd Hl. destruct (Hs k l Hl) as (i & j & Hij & Hi & Hj & E). rewrite E. cbn [fst snd].
  split; [|split; apply nth_In; assumption].
  intros Eq. apply Hij. eapply NoDup_nth; eassumption.
Qed.

(** Every pair has two different names of the pool. *)
Lemma pick_pairs_distinct pool k used n :
  NoDup pool -> (2 <= List.length pool)%nat ->
  Forall (fun p => fst p <> snd p /\ In (fst p) pool /\ In (snd p) pool)
    (pick_pairs pool sample k used n).
Proof.
  intros Hp Hl. revert k used; induction n as [|n IH]; intros k used; cbn [pick_pairs];
    [constructor|].
  set (avail := filter (fun p => negb (existsb (String.eqb p) used)) pool).
  destruct (Nat.ltb_spec (List.length avail) 2).
  - pose proof (sample_from pool k Hp Hl) as Hsm.
    destruct (sample k pool) as [a b]. constructor; [exact Hsm|apply IH].
  - assert (Hav : NoDup avail) by (apply NoDup_filter, Hp).
    pose proof (sample_from avail k Hav ltac:(lia)) as (Hab & Ha & Hb).
    destruct (sample k avail) as [a b]. cbn [fst snd] in *.
    constructor; [|apply IH].
    apply filter_In in Ha, Hb. cbn [fst snd]. tauto.
Qed.

(** While the pool is not exhausted no name is drawn twice, nor one of
    the names already used. *)
Lemma pick_pairs_fresh pool n : forall k used,
  NoDup pool -> NoDup used -> incl used pool -> (2 * n + List.length used <= List.length pool)%nat ->
  NoDup (pair_list (pick_pairs pool sample k used n) ++ used)%list /\
  incl (pair_list (pick_pairs pool sample k used n)) pool.
Proof.
  induction n as [|n IH]; intros k used Hp Hu Hinc Hlen; cbn [pick_pairs].
  - split; [exact Hu|intros x []].
  - set (avail := filter (fun p => negb (existsb (String.eqb p) used)) pool).
    assert (Hal : List.length avail = (List.length pool - List.length used)%nat)
      by (apply available_length; assumption).
    assert (Hlt : Nat.ltb (List.length avail) 2 = false) by (apply Nat.ltb_ge; lia).
    rewrite Hlt.
    assert (Hav : NoDup avail) by (apply NoDup_filter, Hp).
    pose proof (sample_from avail k Hav ltac:(lia)) as (Hab & Ha & Hb).
    destruct (sample k avail) as [a b]. cbn [fst snd] in *.
    apply filter_In in Ha as [Ha Ha'], Hb as [Hb Hb'].
    apply negb_true_iff in Ha', Hb'.
    assert (Na : ~ In a used) by (intros H; apply existsb_eqb_in in H; congruence).
    assert (Nb : ~ In b used) by (intros H; apply existsb_eqb_in in H; congruence).
    destruct (IH (S k) (b :: a :: used)) as [Hnd Hsub].
    + exact Hp.
    + constructor; [intros [E|E]; [congruence|contradiction]|constructor; assumption].
    + intros x [<-|[<-|H]]; auto.
    + cbn [List.length]. lia.
    + cbn [pair_list fst snd List.app]. split.
      * eapply Permutation_NoDup; [|exact Hnd].
        rewrite <- Permutation_middle, <- Permutation_middle. apply perm_swap.
      * intros x [<-|[<-|H]]; auto.
Qed.

End Sampler.

Lemma mapi_from_pairs {B : Type} (f : nat -> string * string -> B) (p1 p2 : B -> json) k ps :
  (forall k a b, p1 (f k (a, b)) = JStr a /\ p2 (f k (a, b)) = JStr b) ->
  flat_map (fun m => [p1 m; p2 m]) (mapi_from f k ps) = map JStr (pair_list ps).
Proof.
  intros Hf. revert k; induction ps as [|[a b] ps IH]; intros k;
    cbn [mapi_from flat_map pair_list map fst snd]; [reflexivity|].
  destruct (Hf k a b) as [E1 E2]. rewrite E1, E2, IH. reflexivity.
Qed.

Lemma mapi_from_forall {B : Type} (f : nat -> string * string -> B) (P : string * string -> Prop)
    (Q : B -> Prop) k ps :
  (forall k p, P p -> Q (f k p)) -> Forall P ps -> Forall Q (mapi_from f k ps).
Proof.
  intros Hf Hps. revert k; induction Hps as [|p ps Hp _ IH]; intros k; cbn [mapi_from];
    constructor; auto.
Qed.

Lemma mapi_from_length {A B : Type} (f : nat -> A -> B) k xs :
  List.length (mapi_from f k xs) = List.length xs.
Proof. revert k; induction xs as [|x xs IH]; intros k; cbn [mapi_from List.length]; auto. Qed.

Lemma mapi_from_firstn {A B : Type} (f : nat -> A -> B) m k xs :
  firstn m (mapi_from f k xs) = mapi_from f k (firstn m xs).
Proof.
  revert m k; induction xs as [|x xs IH]; intros m k.
  - rewrite !firstn_nil. reflexivity.
  - destruct m as [|m]; [reflexivity|]. cbn [firstn mapi_from]. rewrite IH. reflexivity.
Qed.

(** X23.  The simulated tennis schedule has [num_matches] matches and, as
    long as there are at most ten of them (twenty players in the pool),
    the players of all matches are names of the pool, all different: no
    player is drawn twice. *)
Theorem simulated_tennis_players num_matches sample draws
  (Hs : valid_sampler sample) (Hn : num_matches <= 10) :
  List.length (_get_simulated_matches_tennis num_matches sample draws) = Z.to_nat num_matches /\
  exists names,
    flat_map (fun m => [tm_player1 m; tm_player2 m])
      (_get_simulated_matches_tennis num_matches sample draws) = map JStr names /\
    NoDup names /\ incl names tennis_players.
Proof.
  split.
  - unfold _get_simulated_matches_tennis. rewrite mapi_from_length. apply pick_pairs_length.
  - exists (pair_list (pick_pairs tennis_players sample 0 [] (Z.to_nat num_matches))).
    split.
    + unfold _get_simulated_matches_tennis. apply mapi_from_pairs.
      intros k a b. split; reflexivity.
    + destruct (pick_pairs_fresh sample Hs tennis_players (Z.to_nat num_matches) 0 [])
        as [Hnd Hsub].
      * repeat constructor; cbn; intuition discriminate.
      * constructor.
      * intros x [].
      * cbn [List.length tennis_players]. lia.
      * rewrite app_nil_r in Hnd. split; assumption.
Qed.

Lemma simulated_tennis_players_witness :
  List.length (_get_simulated_matches_tennis 8 (fun _ l => (nth 0 l "", nth 1 l ""))
     (fun _ => {| ts_tournament := 0; ts_surface := 0; ts_hour := 10; ts_half := false;
                  ts_round := 0 |})) = 8%nat /\
  exists names,
    flat_map (fun m => [tm_player1 m; tm_player2 m])
      (_get_simulated_matches_tennis 8 (fun _ l => (nth 0 l "", nth 1 l ""))
         (fun _ => {| ts_tournament := 0; ts_surface := 0; ts_hour := 10; ts_half := false;
                      ts_round := 0 |})) = map JStr names /\
    NoDup names /\ incl names tennis_players.
Proof.
  apply simulated_tennis_players.
  - intros k l Hl. exists 0%nat, 1%nat. repeat split; [discriminate|lia|lia].
  - lia.
Defined.

(** X24.  Every simulated NBA game is in league "NBA" between two
    different teams of the twelve; the first six games (all the pool
    allows before it is reset) use twelve different teams. *)
Theorem simulated_games_teams num_games sample hour (Hs : valid_sampler sample) :
  List.length (_get_simulated_games num_games sample hour) = Z.to_nat num_games /\
  Forall (fun g => bg_league g = JStr "NBA" /\
     exists h a, bg_home_team g = JStr h /\ bg_away_team g = JStr a /\ h <> a /\
       In h nba_teams /\ In a nba_teams)
    (_get_simulated_games num_games sample hour) /\
  exists names,
    flat_map (fun g => [bg_home_team g; bg_away_team g])
      (firstn 6 (_get_simulated_games num_games sample hour)) = map JStr names /\
    NoDup names.
Proof.
  assert (Hp : NoDup nba_teams) by (repeat constructor; cbn; intuition discriminate).
  split; [|split].
  - unfold _get_simulated_games. rewrite mapi_from_length. apply pick_pairs_length.
  - unfold _get_simulated_games.
    apply (mapi_from_forall _ (fun p => fst p <> snd p /\ In (fst p) nba_teams /\ In (snd p) nba_teams)).
    + intros k [h a] H. cbn [fst snd] in H. split; [reflexivity|].
      exists h, a. tauto.
    + apply pick_pairs_distinct; [exact Hs|exact Hp|cbn; lia].
  - exists (pair_list (pick_pairs nba_teams sample 0 [] (Nat.min 6 (Z.to_nat num_games)))).
    split.
    + unfold _get_simulated_games. rewrite mapi_from_firstn, pick_pairs_firstn.
      apply mapi_from_pairs. intros k a b. split; reflexivity.
    + destruct (pick_pairs_fresh sample Hs nba_teams (Nat.min 6 (Z.to_nat num_games)) 0 [])
        as [Hnd _].
      * exact Hp.
      * constructor.
      * intros x [].
      * cbn [List.length nba_teams]. lia.
      * rewrite app_nil_r in Hnd. exact Hnd.
Qed.

Lemma simulated_games_teams_witness :
  List.length (_get_simulated_games 10 (fun _ l => (nth 0 l "", nth 1 l "")) (fun _ => 7))
    = 10%nat /\
  Forall (fun g => bg_league g = JStr "NBA" /\
     exists h a, bg_home_team g = JStr h /\ bg_away_team g = JStr a /\ h <> a /\
       In h nba_teams /\ In a nba_teams)
    (_get_simulated_games 10 (fun _ l => (nth 0 l "", nth 1 l "")) (fun _ => 7)) /\
  exists names,
    flat_map (fun g => [bg_home_team g; bg_away_team g])
      (firstn 6 (_get_simulated_games 10 (fun _ l => (nth 0 l "", nth 1 l "")) (fun _ => 7)))
      = map JStr names /\
    NoDup names.
Proof.
  apply simulated_games_teams.
  intros k l Hl. exists 0%nat, 1%nat. repeat split; [discriminate|lia|lia].
Defined.
